(** * genGlslEmuLib.py: artifact assembly and hex embedding pipeline

    A shallow embedding of
    [src/icd/api/llpc/patch/generate/script/genGlslEmuLib.py] and the
    properties of its hex encoder, its clean-up pass and its packaging
    steps. *)

From Stdlib Require Import NArith ZArith Ascii String.
From Stdlib.Strings Require Import Byte.
From stdpp Require Import gmap strings list fin_maps.

Local Open Scope string_scope.
Local Open Scope nat_scope.
Local Open Scope list_scope.

(** ** Part 1. The binary-to-hex pass *)

Module Hex.

(** [binascii.hexlify]: each byte becomes two characters of
    ["0123456789abcdef"], high nibble first. *)
Definition hexdigits : string := "0123456789abcdef".

Definition hex_digit (d : N) : ascii :=
  match String.get (N.to_nat d) hexdigits with
  | Some c => c
  | None => "0"%char
  end.

Definition hex_pair (b : Byte.byte) : string :=
  String (hex_digit (N.shiftr (Byte.to_N b) 4))
    (String (hex_digit (N.land (Byte.to_N b) 15)) EmptyString).

Fixpoint hexlify (binData : list Byte.byte) : string :=
  match binData with
  | [] => EmptyString
  | b :: rest => hex_pair b +:+ hexlify rest
  end.

(** Outcome of one of the [while] loops: the text it built, an
    [IndexError] from [hexData[i]] or [hexData[i + 1]], or the model's
    iteration budget used up. *)
Inductive loop_result : Type :=
  | Done (hexText : string)
  | IndexError
  | OutOfFuel.

Definition nl : ascii := ascii_of_nat 10.
Definition newline : string := String nl EmptyString.

(** Lines 129-138: the loop of the special-library packaging step. *)
Fixpoint special_loop (fuel : nat) (hexData : string) (i : nat)
    (hexText : string) : loop_result :=
  match fuel with
  | O => OutOfFuel
  | S fuel' =>
      if i <? String.length hexData then
        let hexText := hexText +:+ "0x" in
        match String.get i hexData with
        | None => IndexError
        | Some c0 =>
            let hexText := hexText +:+ String c0 EmptyString in
            match String.get (i + 1) hexData with
            | None => IndexError
            | Some c1 =>
                let hexText := hexText +:+ String c1 EmptyString in
                let i := i + 2 in
                let hexText :=
                  if negb (i =? String.length hexData)
                  then hexText +:+ ", " else hexText in
                let hexText :=
                  if i mod 32 =? 0 then hexText +:+ newline else hexText in
                special_loop fuel' hexData i hexText
            end
        end
      else Done hexText
  end.

(** Lines 126-138. *)
Definition bin2hex_special (binData : list Byte.byte) : loop_result :=
  let hexData := hexlify binData in
  special_loop (S (String.length hexData)) hexData 0 "".

(** Lines 174-183: the loop of the common-library packaging step. *)
Fixpoint common_loop (fuel : nat) (hexData : string) (i : nat)
    (hexText : string) : loop_result :=
  match fuel with
  | O => OutOfFuel
  | S fuel' =>
      if i <? String.length hexData then
        let hexText := hexText +:+ "0x" in
        match String.get i hexData with
        | None => IndexError
        | Some c0 =>
            let hexText := hexText +:+ String c0 EmptyString in
            match String.get (i + 1) hexData with
            | None => IndexError
            | Some c1 =>
                let hexText := hexText +:+ String c1 EmptyString in
                let i := i + 2 in
                let hexText :=
                  if negb (i =? String.length hexData)
                  then hexText +:+ ", " else hexText in
                let hexText :=
                  if i mod 32 =? 0 then hexText +:+ newline else hexText in
                common_loop fuel' hexData i hexText
            end
        end
      else Done hexText
  end.

(** Lines 171-183. *)
Definition bin2hex_common (binData : list Byte.byte) : loop_result :=
  let hexData := hexlify binData in
  common_loop (S (String.length hexData)) hexData 0 "".

(** Lines 247-256: the loop of the per-variant packaging step. *)
Fixpoint variant_loop (fuel : nat) (hexData : string) (i : nat)
    (hexText : string) : loop_result :=
  match fuel with
  | O => OutOfFuel
  | S fuel' =>
      if i <? String.length hexData then
        let hexText := hexText +:+ "0x" in
        match String.get i hexData with
        | None => IndexError
        | Some c0 =>
            let hexText := hexText +:+ String c0 EmptyString in
            match String.get (i + 1) hexData with
            | None => IndexError
            | Some c1 =>
                let hexText := hexText +:+ String c1 EmptyString in
                let i := i + 2 in
                let hexText :=
                  if negb (i =? String.length hexData)
                  then hexText +:+ ", " else hexText in
                let hexText :=
                  if i mod 32 =? 0 then hexText +:+ newline else hexText in
                variant_loop fuel' hexData i hexText
            end
        end
      else Done hexText
  end.

(** Lines 244-256. *)
Definition bin2hex_variant (binData : list Byte.byte) : loop_result :=
  let hexData := hexlify binData in
  variant_loop (S (String.length hexData)) hexData 0 "".

(** *** The layout, piece by piece

    [layout k bs] is the text the loop appends for the bytes [bs] when
    [k] bytes have been rendered before them. *)
Definition token (b : Byte.byte) : string :=
  String "0" (String "x" (hex_pair b)).

Fixpoint layout (k : nat) (bs : list Byte.byte) : string :=
  match bs with
  | [] => ""
  | b :: rest =>
      token b
      +:+ (match rest with [] => "" | _ :: _ => ", " end)
      +:+ (if (S k) mod 16 =? 0 then newline else "")
      +:+ layout (S k) rest
  end.

(** *** Reading the text back

    The decoding of the round-trip property: drop every ["0x"], drop
    commas, spaces and newlines, then read two hex digits per byte. *)
Fixpoint strip_0x (s : string) : string :=
  match s with
  | EmptyString => EmptyString
  | String c s' =>
      match s' with
      | String c' s'' =>
          if Ascii.eqb c "0" && Ascii.eqb c' "x" then strip_0x s''
          else String c (strip_0x s')
      | EmptyString => String c EmptyString
      end
  end.

Definition is_separator (c : ascii) : bool :=
  Ascii.eqb c "," || Ascii.eqb c " " || Ascii.eqb c nl.

Fixpoint strip_separators (s : string) : string :=
  match s with
  | EmptyString => EmptyString
  | String c s' =>
      if is_separator c then strip_separators s'
      else String c (strip_separators s')
  end.

(** The value of a lowercase hex digit is its place in
    ["0123456789abcdef"]; no other character has one. *)
Fixpoint place_in (s : string) (c : ascii) : option N :=
  match s with
  | EmptyString => None
  | String c' s' =>
      if Ascii.eqb c c' then Some 0%N
      else match place_in s' c with
           | Some k => Some (N.succ k)
           | None => None
           end
  end.

Definition hex_value (c : ascii) : option N := place_in hexdigits c.

Fixpoint unhexlify (s : string) : option (list Byte.byte) :=
  match s with
  | EmptyString => Some []
  | String c1 s1 =>
      match s1 with
      | EmptyString => None
      | String c2 s2 =>
          match hex_value c1, hex_value c2, unhexlify s2 with
          | Some h, Some l, Some bs =>
              match Byte.of_N (16 * h + l) with
              | Some b => Some (b :: bs)
              | None => None
              end
          | _, _, _ => None
          end
      end
  end.

Definition decode (text : string) : option (list Byte.byte) :=
  unhexlify (strip_separators (strip_0x text)).

(** The text does not start with an ["x"]. *)
Definition no_x_head (s : string) : Prop :=
  match s with
  | String c _ => Ascii.eqb c "x" = false
  | EmptyString => True
  end.

(** *** Vocabulary of the line-wrap property *)
Fixpoint count_char (c : ascii) (s : string) : nat :=
  match s with
  | EmptyString => 0
  | String c' s' => (if Ascii.eqb c' c then 1 else 0) + count_char c s'
  end.

Fixpoint remove_char (c : ascii) (s : string) : string :=
  match s with
  | EmptyString => EmptyString
  | String c' s' =>
      if Ascii.eqb c' c then remove_char c s' else String c' (remove_char c s')
  end.

(** [ceil(n/16) - 1], and zero for [n = 0]. *)
Definition claimed_newlines (n : nat) : nat :=
  if n =? 0 then 0 else (n + 15) / 16 - 1.

Definition is_hex_char (c : ascii) : bool :=
  match hex_value c with Some _ => true | None => false end.

(** A ["0xNN"] token starts at position [q] of [text]. *)
Definition token_at (text : string) (q : nat) : Prop :=
  String.get q text = Some "0"%char ∧
  String.get (q + 1) text = Some "x"%char ∧
  (∃ h, String.get (q + 2) text = Some h ∧ is_hex_char h = true) ∧
  (∃ l, String.get (q + 3) text = Some l ∧ is_hex_char l = true).

(** The character at [p] comes right after a [", "]. *)
Definition follows_separator (text : string) (p : nat) : Prop :=
  2 ≤ p ∧
  String.get (p - 2) text = Some ","%char ∧
  String.get (p - 1) text = Some " "%char.

(** The character at [p] sits between tokens, so it splits none: a
    whole token or a [", "] ends right before it (or the text starts
    there), and a whole token or nothing comes right after it. *)
Definition between_tokens (text : string) (p : nat) : Prop :=
  (p = 0 ∨ follows_separator text p ∨ (4 ≤ p ∧ token_at text (p - 4))) ∧
  (String.get (S p) text = None ∨ token_at text (S p)).

(** The line-wrap property as the specification words it, for an input
    of [n] bytes rendered as [text]. *)
Definition line_wrap_claim (n : nat) (text : string) : Prop :=
  count_char nl text = claimed_newlines n ∧
  ∀ p, String.get p text = Some nl →
       follows_separator text p ∧ between_tokens text p.

(** Where the loop does put the newline at [p], for an input of [n]
    bytes: right after a [", "] and right before the next token, or,
    when [n] is a positive multiple of 16, as the last character, right
    after the last token. *)
Definition wrap_point (n : nat) (text : string) (p : nat) : Prop :=
  (follows_separator text p ∧ token_at text (S p)) ∨
  (S p = String.length text ∧ 4 ≤ p ∧ token_at text (p - 4) ∧
   0 < n ∧ n mod 16 = 0).

(** [", ".join(tokens)]. *)
Fixpoint join (sep : string) (l : list string) : string :=
  match l with
  | [] => ""
  | [x] => x
  | x :: (_ :: _) as l' => x +:+ sep +:+ join sep l'
  end.

(** Sixteen zero bytes: one full line of the header. *)
Definition one_full_line : list Byte.byte := repeat Byte.x00 16.

End Hex.

(** ** Part 2. Python strings and the operating system

    The script is straight-line Python over [os], [subprocess] and
    [open]. Its world is modelled as a state: the current directory, the
    files below the working root, and the trace of what the script did
    to them. The progress lines the script prints are left out. *)

Module Py.

(** [s.startswith(pre)] and [s.endswith(suf)]. *)
Definition startswith (s pre : string) : bool := String.prefix pre s.

Fixpoint endswith (s suf : string) : bool :=
  String.eqb s suf
  || match s with
     | EmptyString => false
     | String _ s' => endswith s' suf
     end.

(** [str.isspace] on the code points below 256. *)
Definition is_space (c : ascii) : bool :=
  let n := nat_of_ascii c in
  ((9 <=? n) && (n <=? 13)) || ((28 <=? n) && (n <=? 32))
  || (n =? 133) || (n =? 160).

(** [s.split()]: the maximal runs of non-space characters, in order.
    [cur] is the run being read. *)
Fixpoint split_go (cur : string) (s : string) : list string :=
  match s with
  | EmptyString => match cur with EmptyString => [] | _ => [cur] end
  | String c s' =>
      if is_space c
      then match cur with
           | EmptyString => split_go "" s'
           | _ => cur :: split_go "" s'
           end
      else split_go (cur +:+ String c "") s'
  end.

Definition split (s : string) : list string := split_go "" s.

(** [s.capitalize()], on ASCII letters: first character upper-cased,
    the others lower-cased. *)
Definition upper (c : ascii) : ascii :=
  let n := nat_of_ascii c in
  if (97 <=? n) && (n <=? 122) then ascii_of_nat (n - 32) else c.

Definition lower (c : ascii) : ascii :=
  let n := nat_of_ascii c in
  if (65 <=? n) && (n <=? 90) then ascii_of_nat (n + 32) else c.

Fixpoint map_chars (f : ascii → ascii) (s : string) : string :=
  match s with
  | EmptyString => EmptyString
  | String c s' => String (f c) (map_chars f s')
  end.

Definition capitalize (s : string) : string :=
  match s with
  | EmptyString => EmptyString
  | String c s' => String (upper c) (map_chars lower s')
  end.

End Py.

Module Os.

(** A file with its bytes, or a directory. The file system is a finite
    map from paths (lists of names below the working root, which is
    [[]]) to nodes; the working root itself is a directory. *)
Inductive node : Type :=
  | File (data : list Byte.byte)
  | Dir.

(** The exceptions the script can meet. *)
Inductive exn : Type :=
  | FileNotFoundError
  | IsADirectoryError
  | NotADirectoryError
  | SpawnError        (* [subprocess.call] could not start the program *)
  | IndexError
  | GeneratorError.   (* raised inside one of the two generator modules *)

(** What the script itself did, in order. *)
Inductive event : Type :=
  | Spawned (shell : bool) (cmd : string)
  | Opened (p : list string)
  | Written (p : list string) (text : string)
  | Removed (p : list string).

Record state : Type := mkState {
  cwd : list string;
  fs : gmap (list string) node;
  log : list event
}.

Inductive outcome (A : Type) : Type :=
  | Ok (a : A)
  | Raise (e : exn).
Arguments Ok {A} a.
Arguments Raise {A} e.

(** A command of the script: it returns or raises, and leaves a state
    either way. *)
Definition M (A : Type) : Type := state → outcome A * state.

Definition ret {A : Type} (a : A) : M A := fun s => (Ok a, s).

Definition raise {A : Type} (e : exn) : M A := fun s => (Raise e, s).

Definition bind {A B : Type} (m : M A) (k : A → M B) : M B :=
  fun s =>
    match m s with
    | (Ok a, s') => k a s'
    | (Raise e, s') => (Raise e, s')
    end.

#[global] Instance M_ret : MRet M := @ret.
#[global] Instance M_bind : MBind M := fun A B k m => bind m k.

(** [for x in l: body(x)]. *)
Fixpoint for_each {A : Type} (l : list A) (body : A → M unit) : M unit :=
  match l with
  | [] => ret tt
  | x :: l' => body x ;; for_each l' body
  end.

(** *** Paths *)

(** [p.split("/")]. *)
Fixpoint split_slash (p : string) : list string :=
  match p with
  | EmptyString => [""]
  | String c p' =>
      if Ascii.eqb c "/" then "" :: split_slash p'
      else match split_slash p' with
           | x :: xs => String c x :: xs
           | [] => [String c ""]
           end
  end.

(** One component of a path walked from the directory [at_]: [""] and
    ["."] stay, [".."] goes up, a name goes down. *)
Definition walk (at_ : list string) (c : string) : list string :=
  if String.eqb c "" || String.eqb c "." then at_
  else if String.eqb c ".." then removelast at_
  else at_ ++ [c].

(** The node a relative path string names, seen from [cwd]. *)
Definition resolve (cwd : list string) (p : string) : list string :=
  fold_left walk (split_slash p) cwd.

(** No ["/"] in the name. *)
Definition no_slash (f : string) : bool :=
  forallb (fun c => negb (Ascii.eqb c "/")) (list_ascii_of_string f).

(** A name a directory entry can have. *)
Definition valid_name (f : string) : bool :=
  negb (String.eqb f "") && negb (String.eqb f ".")
  && negb (String.eqb f "..")
  && forallb (fun c => negb (Ascii.eqb c "/")) (list_ascii_of_string f).

(** *** Directories *)

Definition is_dir (t : gmap (list string) node) (d : list string) : bool :=
  match d with
  | [] => true
  | _ => match t !! d with Some Dir => true | _ => false end
  end.

Fixpoint strip_dir (d p : list string) : option (list string) :=
  match d, p with
  | [], _ => Some p
  | x :: d', y :: p' => if String.eqb x y then strip_dir d' p' else None
  | _ :: _, [] => None
  end.

(** The name of [p] inside [d], when [p] lies directly inside [d]. *)
Definition child_name (d p : list string) : option string :=
  match strip_dir d p with
  | Some [n] => Some n
  | _ => None
  end.

(** The names directly inside [d], in the order the system lists them. *)
Definition entries (t : gmap (list string) node) (d : list string) : list string :=
  omap (child_name d) (map fst (map_to_list t)).

(** *** The calls the script makes *)

Definition emit (e : event) : M unit :=
  fun s => (Ok tt, mkState (cwd s) (fs s) (log s ++ [e])).

(** [os.listdir(p)]. *)
Definition listdir (p : string) : M (list string) :=
  fun s =>
    let d := resolve (cwd s) p in
    if is_dir (fs s) d then (Ok (entries (fs s) d), s)
    else match fs s !! d with
         | Some _ => (Raise NotADirectoryError, s)
         | None => (Raise FileNotFoundError, s)
         end.

(** [os.path.isdir(p)]. *)
Definition isdir (p : string) : M bool :=
  fun s => (Ok (is_dir (fs s) (resolve (cwd s) p)), s).

(** [os.chdir(p)]. *)
Definition chdir (p : string) : M unit :=
  fun s =>
    let d := resolve (cwd s) p in
    if is_dir (fs s) d then (Ok tt, mkState d (fs s) (log s))
    else match fs s !! d with
         | Some _ => (Raise NotADirectoryError, s)
         | None => (Raise FileNotFoundError, s)
         end.

(** [os.remove(p)]. *)
Definition remove (p : string) : M unit :=
  fun s =>
    let q := resolve (cwd s) p in
    if is_dir (fs s) q then (Raise IsADirectoryError, s)
    else match fs s !! q with
         | Some _ =>
             (Ok tt, mkState (cwd s) (delete q (fs s)) (log s ++ [Removed q]))
         | None => (Raise FileNotFoundError, s)
         end.

(** [f = open(p, "rb"); data = f.read(); f.close()]. *)
Definition read_binary (p : string) : M (list Byte.byte) :=
  fun s =>
    let q := resolve (cwd s) p in
    if is_dir (fs s) q then (Raise IsADirectoryError, s)
    else match fs s !! q with
         | Some (File data) => (Ok data, s)
         | _ => (Raise FileNotFoundError, s)
         end.

(** [f = open(p, "w")]: the file is created or emptied; the handle is
    the node it names. *)
Definition open_w (p : string) : M (list string) :=
  fun s =>
    let q := resolve (cwd s) p in
    if is_dir (fs s) q then (Raise IsADirectoryError, s)
    else if is_dir (fs s) (removelast q) then
      (Ok q, mkState (cwd s) (<[q := File []]> (fs s)) (log s ++ [Opened q]))
    else match fs s !! removelast q with
         | Some _ => (Raise NotADirectoryError, s)
         | None => (Raise FileNotFoundError, s)
         end.

(** [f.write(text); f.close()]. *)
Definition write_close (f : list string) (text : string) : M unit :=
  fun s =>
    (Ok tt,
     mkState (cwd s) (<[f := File (list_byte_of_string text)]> (fs s))
       (log s ++ [Written f text])).

(** *** The world outside the script *)

(** How a call to [subprocess.call] ends: the program ran and exited
    with a status (negative when a signal killed it), or it could not
    be started. *)
Inductive call_result : Type :=
  | Exited (status : Z)
  | NotStarted.

(** An external program: what it does to the files, given its command
    line and whether a shell interprets it. *)
Definition program : Type :=
  bool → string → gmap (list string) node → call_result * gmap (list string) node.

(** A generator module's [main(input, output, mode)]. *)
Definition generator : Type :=
  string → string → string →
  gmap (list string) node → outcome unit * gmap (list string) node.

(** [subprocess.call(cmd)] or [subprocess.call(cmd, shell = True)]:
    returns the exit status. *)
Definition subprocess_call (run : program) (shell : bool) (cmd : string) : M Z :=
  fun s =>
    let '(r, t) := run shell cmd (fs s) in
    let s' := mkState (cwd s) t (log s ++ [Spawned shell cmd]) in
    match r with
    | Exited status => (Ok status, s')
    | NotStarted => (Raise SpawnError, s')
    end.

Definition call_generator (g : generator) (input output mode : string) : M unit :=
  fun s =>
    let '(r, t) := g input output mode (fs s) in
    (r, mkState (cwd s) t (log s)).

End Os.

(** ** Part 3. The script

    [genGlslEmuLib.py], block by block. Line 40 moves to the working
    root, which is the root [[]] of the modelled file system, so a run
    starts in a state whose [cwd] is [[]]. *)

Module Script.
Import Py Os.

(** The text of an encoding loop, as a command. *)
Definition hex_text (r : Hex.loop_result) : M string :=
  match r with
  | Hex.Done hexText => mret hexText
  | Hex.IndexError => raise IndexError
  | Hex.OutOfFuel => raise IndexError
  end.

Section Script.

(** [sys.argv[1]], [sys.argv[2]], [sys.argv[3]]. *)
Variables LLVM_AS_DIR LLVM_LINK_DIR OS_TYPE : string.

(** The programs [subprocess.call] starts, and the [main] functions of
    the modules [genGlslArithOpEmuCode] and [genGlslImageOpEmuCode]. *)
Variable run : program.
Variable genGlslArithOpEmuCode : generator.
Variable genGlslImageOpEmuCode : generator.

(** Lines 47-48. *)
Definition LLVM_AS : string := LLVM_AS_DIR +:+ "llvm-as".
Definition LLVM_LINK : string := LLVM_LINK_DIR +:+ "llvm-link".

(** The four lines repeated at every call site (93-96, 114-117,
    159-162, 217-220, 232-235); the exit status is dropped. *)
Definition call (cmd : string) : M unit :=
  if String.eqb OS_TYPE "win"
  then (_ ← subprocess_call run false cmd; mret tt)
  else (_ ← subprocess_call run true cmd; mret tt).

(** The test of lines 56 and 64. *)
Definition is_generated (f : string) : bool :=
  startswith f "g_" || endswith f ".bc" || endswith f ".lib".

(** Lines 63-66. *)
Definition cleanup_inner (names : list string) : M unit :=
  for_each names (fun f =>
    if is_generated f then remove f else mret tt).

(** Lines 55-68: the pre-compile clean-up. *)
Definition cleanup : M unit :=
  names ← listdir "./";
  for_each names (fun f =>
    if is_generated f then remove f
    else
      d ← isdir f;
      if d && startswith f "gfx" then
        let gfx := f in
        chdir ("./" +:+ gfx);;
        names' ← listdir "./";
        cleanup_inner names';;
        chdir "./.."
      else mret tt).

(** Lines 80-81. *)
Definition generate_common : M unit :=
  call_generator genGlslArithOpEmuCode
    "./script/genGlslArithOpEmuCode.txt" "g_glslArithOpEmu.ll" "std32";;
  call_generator genGlslArithOpEmuCode
    "./script/genGlslArithOpEmuCodeF64.txt" "g_glslArithOpEmuF64.ll" "float64".

(** Lines 89-96. *)
Definition assemble_common : M unit :=
  names ← listdir "./";
  for_each names (fun f =>
    if endswith f ".ll" then call (LLVM_AS +:+ " " +:+ f) else mret tt).

(** Line 99. *)
Definition SPECIAL_EMUS : list string := ["NullFs"; "CopyShader"].

(** The test of line 104. *)
Definition is_special (feature f : string) : bool :=
  startswith f ("glsl" +:+ feature) && endswith f "Emu.bc".

(** Lines 102-105: the last listed name that passes the test, or [""]. *)
Definition find_special (feature : string) (names : list string) : string :=
  fold_left (fun bcFile f => if is_special feature f then f else bcFile)
    names "".

(** Lines 101-146: the body of the loop over [SPECIAL_EMUS]. *)
Definition package_special (feature : string) : M unit :=
  names ← listdir "./";
  let bcFile := find_special feature names in
  if String.eqb bcFile "" then mret tt
  else
    let libFile := "glsl" +:+ feature +:+ "Emu.lib" in
    let cmd := LLVM_LINK +:+ " -o=" +:+ libFile +:+ " " +:+ bcFile in
    call cmd;;
    let hFile := "g_llpcGlsl" +:+ feature +:+ "EmuLib.h" in
    binData ← read_binary libFile;
    fHex ← open_w hFile;
    hexText ← hex_text (Hex.bin2hex_special binData);
    write_close fHex hexText;;
    remove bcFile;;
    remove libFile.

(** Lines 150-153. *)
Definition collect_common (names : list string) : string :=
  fold_left (fun bcFiles f =>
               if endswith f ".bc" then bcFiles +:+ (f +:+ " ") else bcFiles)
    names "".

(** Lines 150-192. *)
Definition package_common : M unit :=
  names ← listdir "./";
  let bcFiles := collect_common names in
  let libFile := "glslEmu.lib" in
  let cmd := LLVM_LINK +:+ " -o=" +:+ libFile +:+ " " +:+ bcFiles in
  call cmd;;
  let hFile := "g_llpcGlslEmuLib.h" in
  binData ← read_binary libFile;
  fHex ← open_w hFile;
  hexText ← hex_text (Hex.bin2hex_common binData);
  write_close fHex hexText;;
  for_each (split bcFiles) (fun f => remove f);;
  remove libFile.

(** Line 201. *)
Definition GFX_EMUS : list string := ["gfx6"; "gfx9"].

(** Line 206. *)
Definition generate_variant (gfx : string) : M unit :=
  call_generator genGlslImageOpEmuCode
    "./script/genGlslImageOpEmuCode.txt" (gfx +:+ "/g_glslImageOpEmu.ll") gfx.

(** Lines 213-220. *)
Definition assemble_variant (gfx : string) : M unit :=
  names ← listdir gfx;
  for_each names (fun f =>
    if endswith f ".ll" then call (LLVM_AS +:+ " " +:+ gfx +:+ "/" +:+ f)
    else mret tt).

(** Lines 223-226. *)
Definition collect_variant (gfx : string) (names : list string) : string :=
  fold_left (fun bcFiles f =>
               if endswith f ".bc"
               then bcFiles +:+ (gfx +:+ "/" +:+ f +:+ " ") else bcFiles)
    names "".

(** Lines 229 and 238. *)
Definition variant_lib (gfx : string) : string :=
  gfx +:+ "/glslEmu" +:+ capitalize gfx +:+ ".lib".

Definition variant_header (gfx : string) : string :=
  gfx +:+ "/g_llpcGlslEmuLib" +:+ capitalize gfx +:+ ".h".

(** Lines 223-265. *)
Definition package_variant (gfx : string) : M unit :=
  names ← listdir gfx;
  let bcFiles := collect_variant gfx names in
  let libFile := variant_lib gfx in
  let cmd := LLVM_LINK +:+ " -o=" +:+ libFile +:+ " " +:+ bcFiles in
  call cmd;;
  let hFile := variant_header gfx in
  binData ← read_binary libFile;
  fHex ← open_w hFile;
  hexText ← hex_text (Hex.bin2hex_variant binData);
  write_close fHex hexText;;
  for_each (split bcFiles) (fun f => remove f);;
  remove libFile.

(** Lines 202-267: the body of the loop over [GFX_EMUS]. *)
Definition variant (gfx : string) : M unit :=
  generate_variant gfx;;
  assemble_variant gfx;;
  package_variant gfx.

(** The whole script, from line 55 on. *)
Definition main : M unit :=
  cleanup;;
  generate_common;;
  assemble_common;;
  for_each SPECIAL_EMUS package_special;;
  package_common;;
  for_each GFX_EMUS variant.

End Script.

End Script.

(** ** Part 4. Vocabulary of the properties *)

Module Obs.
Import Py Os.

(** The shell flag of every call: [shell = True] unless [OS_TYPE] is
    ["win"]. *)
Definition shell_flag (OS_TYPE : string) : bool :=
  negb (String.eqb OS_TYPE "win").

(** The names of [l], each followed by one space. *)
Definition spaced (l : list string) : string :=
  foldr (fun f acc => f +:+ " " +:+ acc) "" l.

(** The headers a trace wrote, in order, with their text. *)
Definition headers_written (l : list event) : list (list string * string) :=
  omap (fun e => match e with Written p text => Some (p, text) | _ => None end) l.

(** The files a trace created or emptied with [open(.., "w")]. *)
Definition files_opened (l : list event) : list (list string) :=
  omap (fun e => match e with Opened p => Some p | _ => None end) l.

(** The command lines a trace started. *)
Definition commands (l : list event) : list string :=
  omap (fun e => match e with Spawned _ cmd => Some cmd | _ => None end) l.

(** The files a trace removed. *)
Definition removals (l : list event) : list (list string) :=
  omap (fun e => match e with Removed p => Some p | _ => None end) l.

(** A piece of trace with no command, no header and no file opened:
    what the removals leave. *)
Definition quiet (evs : list event) : Prop :=
  commands evs = [] ∧ headers_written evs = [] ∧ files_opened evs = [].

(** Two results of a program that differ at most in the exit status. *)
Definition same_effect (a b : call_result * gmap (list string) node) : Prop :=
  a.2 = b.2 ∧
  match a.1, b.1 with
  | Exited _, Exited _ => True
  | NotStarted, NotStarted => True
  | _, _ => False
  end.

(** The link command of the per-variant step that lists the tree [t]:
    the linker, the variant's library, and every [.bc] name listed in
    the variant's own directory, written with that directory in front. *)
Definition variant_link_command (LLVM_LINK_DIR gfx : string)
    (t : gmap (list string) node) : string :=
  Script.LLVM_LINK LLVM_LINK_DIR +:+ " -o=" +:+ Script.variant_lib gfx +:+ " "
  +:+ spaced (map (fun f => gfx +:+ "/" +:+ f)
                (filter (fun f => endswith f ".bc") (entries t [gfx]))).

(** The entries the clean-up pass is to remove from the tree [t]: the
    generated names directly inside the working root, and the generated
    names directly inside a directory of the working root whose name
    starts with ["gfx"]. (A directory with a generated name is itself
    an entry to remove, so the pass does not look inside it.) *)
Definition doomed (t : gmap (list string) node) (p : list string) : bool :=
  match p with
  | [f] => Script.is_generated f
  | [g; f] =>
      negb (Script.is_generated g) && is_dir t [g] && startswith g "gfx"
      && Script.is_generated f
  | _ => false
  end.

(** The tree without the entries to remove. *)
Definition swept (t : gmap (list string) node) : gmap (list string) node :=
  filter (fun kv => doomed t kv.1 = false) t.

(** The files [d/n], for the names [n] of [ns]. *)
Definition under (d : list string) (ns : list string) : list (list string) :=
  map (fun n => d ++ [n]) ns.

(** The first name of the path [p] is one of [names]. *)
Definition head_in (p : list string) (names : list string) : bool :=
  match p with
  | f :: _ => bool_decide (f ∈ names)
  | [] => false
  end.

(** The clean-up loop over the listing of the working root of [t], with
    the names [rest] still to visit: the doomed entries under the names
    already visited are gone, everything else is as in [t]. *)
Definition sweeping (t : gmap (list string) node) (rest : list string)
    (s : state) : Prop :=
  cwd s = [] ∧ NoDup rest ∧ (∀ f, f ∈ rest → f ∈ entries t []) ∧
  ∀ p, fs s !! p
       = if doomed t p && head_in p (entries t []) && negb (head_in p rest)
         then None else t !! p.

(** *** Vocabulary of the clean-up completeness property *)

(** The name of the object the assembler writes for the source [src]:
    a final [".ll"] becomes [".bc"], and [".bc"] is appended when there
    is none. *)
Fixpoint bc_of (src : string) : string :=
  match src with
  | EmptyString => ".bc"
  | String c src' =>
      if String.eqb src ".ll" then ".bc" else String c (bc_of src')
  end.

(** A name with no white space in it, and not empty: one word of a
    command line. *)
Definition plain (f : string) : bool :=
  negb (String.eqb f "")
  && forallb (fun c => negb (is_space c)) (list_ascii_of_string f).

(** An intermediate binary object or a library binary, by its name. *)
Definition artifact (f : string) : bool :=
  endswith f ".bc" || endswith f ".lib".

(** The names that can stay or appear in a directory the script works
    in, between the clean-up pass and that directory's packaging step:
    no library, and sources and objects named by one word. *)
Definition good_name (f : string) : bool :=
  valid_name f && negb (endswith f ".lib")
  && (negb (endswith f ".ll" || endswith f ".bc") || plain f).

(** The directories the script works in. *)
Definition work_dirs : list (list string) := [[]; ["gfx6"]; ["gfx9"]].

(** No intermediate object and no library directly inside [d]. *)
Definition clean_in (t : gmap (list string) node) (d : list string) : Prop :=
  ∀ f, is_Some (t !! (d ++ [f])) → artifact f = false.

(** Every entry directly inside a work directory has a good name. *)
Definition tidy (t : gmap (list string) node) : Prop :=
  ∀ d f, d ∈ work_dirs → is_Some (t !! (d ++ [f])) → good_name f = true.

(** From [t] to [t'], every entry is as it was, or is gone, or is an
    entry with a good name directly inside [d]. *)
Definition evolves (d : list string) (t t' : gmap (list string) node) : Prop :=
  ∀ p, t' !! p = t !! p ∨ t' !! p = None ∨
       ∃ f, p = d ++ [f] ∧ good_name f = true.

(** The contracts of section 6 of the specification, as frame
    conditions: each program touches its output and nothing else. *)
Definition generator_contract (g : generator) : Prop :=
  ∀ input output mode t p,
    p ≠ resolve [] output → (g input output mode t).2 !! p = t !! p.

Definition assembler_contract (LLVM_AS_DIR : string) (run : program) : Prop :=
  ∀ shell src t p,
    p ≠ resolve [] (bc_of src) →
    (run shell (Script.LLVM_AS LLVM_AS_DIR +:+ " " +:+ src) t).2 !! p = t !! p.

Definition linker_contract (LLVM_LINK_DIR : string) (run : program) : Prop :=
  ∀ shell lib args t p,
    plain lib = true →
    p ≠ resolve [] lib →
    (run shell (Script.LLVM_LINK LLVM_LINK_DIR +:+ " -o=" +:+ lib +:+ " "
                +:+ args) t).2 !! p = t !! p.

(** The sources of the work directories are named by one word. *)
Definition plain_sources (t : gmap (list string) node) : Prop :=
  ∀ d f, d ∈ work_dirs → is_Some (t !! (d ++ [f])) →
         endswith f ".ll" = true → plain f = true.

(** Every name in the tree is one a directory entry can have. *)
Definition wf_names (t : gmap (list string) node) : Prop :=
  ∀ p, is_Some (t !! p) → Forall (fun n => valid_name n = true) p.

End Obs.

(** ** Part 5. A small tool chain and working root to run the script on *)

Module Toy.
Import Py Os.

(** [s] without the prefix [pre], when it has it. *)
Fixpoint strip_prefix (pre s : string) : option string :=
  match pre, s with
  | EmptyString, _ => Some s
  | String a pre', String b s' =>
      if Ascii.eqb a b then strip_prefix pre' s' else None
  | String _ _, EmptyString => None
  end.

Definition file_data (t : gmap (list string) node) (p : string) : option (list Byte.byte) :=
  match t !! resolve [] p with
  | Some (File data) => Some data
  | _ => None
  end.

(** The bytes of all the files named, in order, when every one exists. *)
Fixpoint link_data (t : gmap (list string) node) (inputs : list string) : option (list Byte.byte) :=
  match inputs with
  | [] => Some []
  | p :: inputs' =>
      match file_data t p, link_data t inputs' with
      | Some d, Some ds => Some (d ++ ds)%list
      | _, _ => None
      end
  end.

(** A tool chain that does what section 6 of the specification asks:
    ["llvm-as F"] copies the file [F] to its [.bc] sibling, and
    ["llvm-link -o=L F1 .. Fn"] writes the bytes of its inputs to [L];
    each exits with 1, touching nothing, when an input is missing. *)
Definition tools : program := fun _ cmd t =>
  match strip_prefix "llvm-as " cmd with
  | Some src =>
      match file_data t src with
      | Some d => (Exited 0, <[resolve [] (Obs.bc_of src) := File d]> t)
      | None => (Exited 1, t)
      end
  | None =>
      match strip_prefix "llvm-link -o=" cmd with
      | Some args =>
          match split args with
          | lib :: inputs =>
              match link_data t inputs with
              | Some d => (Exited 0, <[resolve [] lib := File d]> t)
              | None => (Exited 1, t)
              end
          | [] => (Exited 1, t)
          end
      | None => (NotStarted, t)
      end
  end.

(** The same tool chain with every program exiting with [status],
    whatever it did. *)
Definition tools_exiting (status : Z) : program := fun shell cmd t =>
  (Exited status, (tools shell cmd t).2).

(** A generator that writes one byte to its output file. *)
Definition gen : generator := fun _ output _ t =>
  (Ok tt, <[resolve [] output := File [Byte.x2a]]> t).

(** A working root before a run: sources, the two variant directories,
    and what an earlier run left behind. *)
Definition root0 : gmap (list string) node :=
  list_to_map
    [ (["script"], Dir);
      (["glslNullFsEmu.ll"], File [Byte.x01]);
      (["glslCopyShaderEmu.ll"], File [Byte.x02]);
      (["glslBuiltIns.ll"], File [Byte.x03; Byte.x04]);
      (["g_llpcGlslEmuLib.h"], File [Byte.x30]);
      (["stale.bc"], File []);
      (["gfx6"], Dir);
      (["gfx6"; "glslImage.ll"], File [Byte.x06]);
      (["gfx6"; "g_llpcGlslEmuLibGfx6.h"], File [Byte.x30]);
      (["gfx9"], Dir);
      (["gfx9"; "glslImage.ll"], File [Byte.x09]);
      (["gfx9"; "old.lib"], File [Byte.x31]) ].

(** A working root with two objects for the null-fragment-shader
    feature, after assembly. *)
Definition two_specials : gmap (list string) node :=
  list_to_map
    [ (["glslNullFsEmu.bc"], File [Byte.x01]);
      (["glslNullFsAltEmu.bc"], File [Byte.x02]);
      (["glslBuiltIns.bc"], File [Byte.x03]) ].

Definition start (t : gmap (list string) node) : state := mkState [] t [].

Definition run_main (t : gmap (list string) node) : outcome unit * state :=
  Script.main "" "" "linux" tools gen gen (start t).

End Toy.

(** ** Part 6. Vocabulary of the properties of the trace and of the text *)

Module Props.
Import Py Os.

(** The characters a header's text is made of: lowercase hex digits,
    ["x"], and the separators. *)
Definition header_char (c : ascii) : bool :=
  Hex.is_hex_char c || Ascii.eqb c "x" || Hex.is_separator c.

Fixpoint all_chars (P : ascii → bool) (s : string) : bool :=
  match s with
  | EmptyString => true
  | String c s' => P c && all_chars P s'
  end.

(** *** What a command adds to the trace

    Running [m] from [s] adds to the trace only events that satisfy [Q];
    when [m] returns, the current directory satisfies [C'] and the value
    returned satisfies [R]. *)
Definition run_ok {A : Type} (Q : event → Prop) (m : M A) (s : state)
    (C' : list string → Prop) (R : A → Prop) : Prop :=
  ∃ evs, log (m s).2 = log s ++ evs ∧ Forall Q evs ∧
         ∀ a, (m s).1 = Ok a → C' (cwd (m s).2) ∧ R a.

(** The same from every state whose current directory satisfies [C]. *)
Definition triple {A : Type} (C : list string → Prop) (Q : event → Prop)
    (m : M A) (C' : list string → Prop) (R : A → Prop) : Prop :=
  ∀ s, C (cwd s) → run_ok Q m s C' R.

(** The header files, as the script names them (lines 120, 165, 238). *)
Definition header_files : list string :=
  map (fun feature => "g_llpcGlsl" +:+ feature +:+ "EmuLib.h")
    Script.SPECIAL_EMUS
  ++ ["g_llpcGlslEmuLib.h"]
  ++ map Script.variant_header Script.GFX_EMUS.

(** The event starts no program, or starts it with the shell flag
    [flag]. *)
Definition shell_is (flag : bool) (e : event) : Prop :=
  match e with
  | Spawned sh _ => sh = flag
  | _ => True
  end.

(** The event opens or writes no file, or one of [ps]. *)
Definition writes_in (ps : list (list string)) (e : event) : Prop :=
  match e with
  | Opened p => p ∈ ps
  | Written p _ => p ∈ ps
  | _ => True
  end.

(** The event is the removal of a file. *)
Definition is_removal (e : event) : Prop :=
  match e with
  | Removed _ => True
  | _ => False
  end.

End Props.
(** * Part II. Properties *)

(** ** The binary-to-hex pass *)

Section HexFacts.
Import Hex.

(** *** Facts about strings used below *)

Lemma sapp_nil_l (s : string) : "" +:+ s = s.
Proof. reflexivity. Qed.

Lemma sapp_cons (c : ascii) (a b : string) :
  String c a +:+ b = String c (a +:+ b).
Proof. reflexivity. Qed.

Lemma sapp_nil_r (s : string) : s +:+ "" = s.
Proof. induction s as [|c s IH]; [done | by rewrite sapp_cons, IH]. Qed.

Lemma sapp_assoc (a b c : string) : (a +:+ b) +:+ c = a +:+ (b +:+ c).
Proof. induction a as [|x a IH]; [done | by rewrite !sapp_cons, IH]. Qed.

Lemma slength_app (a b : string) :
  String.length (a +:+ b) = String.length a + String.length b.
Proof.
  induction a as [|x a IH]; [done |].
  rewrite sapp_cons. simpl. by rewrite IH.
Qed.

Lemma sget_app (p : nat) (a b : string) :
  String.get p (a +:+ b) =
  if p <? String.length a then String.get p a
  else String.get (p - String.length a) b.
Proof.
  revert p; induction a as [|x a IH]; intros p.
  - rewrite sapp_nil_l. simpl. by rewrite Nat.sub_0_r.
  - rewrite sapp_cons. destruct p as [|p]; [done |]. simpl. rewrite IH.
    change (S p <? S (String.length a)) with (p <? String.length a).
    done.
Qed.

Lemma hexlify_app (xs ys : list Byte.byte) :
  hexlify (xs ++ ys)%list = hexlify xs +:+ hexlify ys.
Proof.
  induction xs as [|x xs IH]; simpl; [done |].
  by rewrite IH.
Qed.

Lemma length_hexlify (xs : list Byte.byte) :
  String.length (hexlify xs) = 2 * length xs.
Proof.
  induction xs as [|x xs IH]; [done |].
  cbn [hexlify length]. rewrite slength_app, IH. simpl. lia.
Qed.

Lemma get_hexlify_hi (xs : list Byte.byte) (b : Byte.byte) (ys : list Byte.byte) :
  String.get (2 * length xs) (hexlify (xs ++ b :: ys)%list)
  = Some (hex_digit (N.shiftr (Byte.to_N b) 4)).
Proof.
  rewrite hexlify_app, sget_app, length_hexlify, Nat.ltb_irrefl, Nat.sub_diag.
  done.
Qed.

Lemma get_hexlify_lo (xs : list Byte.byte) (b : Byte.byte) (ys : list Byte.byte) :
  String.get (2 * length xs + 1) (hexlify (xs ++ b :: ys)%list)
  = Some (hex_digit (N.land (Byte.to_N b) 15)).
Proof.
  rewrite hexlify_app, sget_app, length_hexlify.
  destruct (Nat.ltb_spec (2 * length xs + 1) (2 * length xs)); [lia |].
  replace (2 * length xs + 1 - 2 * length xs) with 1 by lia.
  done.
Qed.

(** The loop, started after the bytes [pre] with [rest] still to render
    and enough iterations left, appends exactly [layout]. *)
Lemma common_loop_layout (rest pre : list Byte.byte) (fuel : nat) (acc : string) :
  length rest < fuel →
  common_loop fuel (hexlify (pre ++ rest)%list) (2 * length pre) acc
  = Done (acc +:+ layout (length pre) rest).
Proof.
  revert pre fuel acc.
  induction rest as [|b rest IH]; intros pre fuel acc Hfuel;
    (destruct fuel as [|fuel]; [simpl in Hfuel; lia |]).
  - cbn [common_loop]. rewrite length_hexlify, length_app. simpl length.
    destruct (Nat.ltb_spec (2 * length pre) (2 * (length pre + 0))); [lia |].
    simpl. by rewrite sapp_nil_r.
  - cbn [common_loop].
    rewrite get_hexlify_hi, get_hexlify_lo.
    rewrite length_hexlify, length_app. cbn [length].
    destruct (Nat.ltb_spec (2 * length pre)
                (2 * (length pre + S (length rest)))); [| lia].
    replace (2 * length pre + 2) with (2 * length (pre ++ [b])%list)
      by (rewrite length_app; simpl; lia).
    replace (pre ++ b :: rest)%list with ((pre ++ [b]) ++ rest)%list
      by (by rewrite <- List.app_assoc).
    rewrite IH by (simpl in Hfuel; lia).
    f_equal.
    rewrite length_app. simpl length.
    replace (length pre + 1) with (S (length pre)) by lia.
    cbn [layout token].
    assert (Hmod : ((2 * S (length pre)) mod 32 =? 0) = (S (length pre) mod 16 =? 0)).
    { replace 32 with (2 * 16) by reflexivity.
      rewrite Nat.Div0.mul_mod_distr_l.
      destruct (S (length pre) mod 16); reflexivity. }
    rewrite Hmod.
    assert (Hlast : negb (2 * S (length pre) =? 2 * (length pre + S (length rest)))
                    = match rest with [] => false | _ => true end).
    { destruct rest; simpl length.
      - replace (length pre + 1) with (S (length pre)) by lia.
        by rewrite Nat.eqb_refl.
      - destruct (Nat.eqb_spec (2 * S (length pre))
                    (2 * (length pre + S (S (length rest))))); [lia | reflexivity]. }
    rewrite Hlast.
    destruct rest; destruct (S (length pre) mod 16 =? 0);
      simpl; rewrite ?sapp_assoc, ?sapp_nil_r; simpl; rewrite ?sapp_assoc; reflexivity.
Qed.

Lemma bin2hex_common_layout (binData : list Byte.byte) :
  bin2hex_common binData = Done (layout 0 binData).
Proof.
  unfold bin2hex_common.
  rewrite (common_loop_layout binData [] _ "").
  - done.
  - rewrite length_hexlify. lia.
Qed.

Lemma bin2hex_special_common (binData : list Byte.byte) :
  bin2hex_special binData = bin2hex_common binData.
Proof. reflexivity. Qed.

Lemma bin2hex_variant_common (binData : list Byte.byte) :
  bin2hex_variant binData = bin2hex_common binData.
Proof. reflexivity. Qed.

(** *** Tokens *)

Lemma token_app (b : Byte.byte) (R : string) :
  token b +:+ R
  = String "0" (String "x"
      (String (hex_digit (N.shiftr (Byte.to_N b) 4))
         (String (hex_digit (N.land (Byte.to_N b) 15)) R))).
Proof. reflexivity. Qed.

Lemma hex_pair_app (b : Byte.byte) (R : string) :
  hex_pair b +:+ R
  = String (hex_digit (N.shiftr (Byte.to_N b) 4))
      (String (hex_digit (N.land (Byte.to_N b) 15)) R).
Proof. reflexivity. Qed.

(** Both digits of a byte are lowercase hex digits, and they carry the
    byte's value. *)
Lemma hex_digits_value (b : Byte.byte) :
  hex_value (hex_digit (N.shiftr (Byte.to_N b) 4)) = Some (Byte.to_N b / 16)%N ∧
  hex_value (hex_digit (N.land (Byte.to_N b) 15)) = Some (Byte.to_N b mod 16)%N.
Proof. destruct b; split; reflexivity. Qed.

Lemma hex_digit_hi_hex (b : Byte.byte) :
  is_hex_char (hex_digit (N.shiftr (Byte.to_N b) 4)) = true.
Proof. unfold is_hex_char. by rewrite (proj1 (hex_digits_value b)). Qed.

Lemma hex_digit_lo_hex (b : Byte.byte) :
  is_hex_char (hex_digit (N.land (Byte.to_N b) 15)) = true.
Proof. unfold is_hex_char. by rewrite (proj2 (hex_digits_value b)). Qed.

(** What a hex digit is not. *)
Lemma hex_char_plain (c : ascii) :
  is_hex_char c = true →
  Ascii.eqb c "x" = false ∧ Ascii.eqb c nl = false ∧ is_separator c = false.
Proof.
  destruct c as [[] [] [] [] [] [] [] []]; intros H; vm_compute in H;
    first [discriminate H | repeat split].
Qed.

Lemma unhexlify_hexlify (bs : list Byte.byte) : unhexlify (hexlify bs) = Some bs.
Proof.
  induction bs as [|b bs IH]; [done |].
  cbn [hexlify]. rewrite hex_pair_app. cbn [unhexlify].
  destruct (hex_digits_value b) as [-> ->]. rewrite IH.
  destruct b; reflexivity.
Qed.

(** *** Decoding the layout *)

Lemma strip_0x_cons (c : ascii) (s : string) :
  Ascii.eqb c "0" = false ∨ no_x_head s →
  strip_0x (String c s) = String c (strip_0x s).
Proof.
  intros H. destruct s as [|c' s]; [done |].
  cbn [strip_0x]. destruct H as [-> | H]; [done |].
  simpl in H. rewrite H. by rewrite andb_false_r.
Qed.

Lemma strip_0x_token (b : Byte.byte) (R : string) :
  no_x_head R →
  strip_0x (token b +:+ R) = hex_pair b +:+ strip_0x R.
Proof.
  intros HR. rewrite token_app, hex_pair_app.
  change (strip_0x (String "0" (String "x" ?s))) with (strip_0x s).
  rewrite strip_0x_cons.
  - by rewrite strip_0x_cons by (by right).
  - right. simpl. apply hex_char_plain, hex_digit_lo_hex.
Qed.

Lemma strip_separators_pair (b : Byte.byte) (R : string) :
  strip_separators (hex_pair b +:+ R) = hex_pair b +:+ strip_separators R.
Proof.
  rewrite !hex_pair_app. cbn [strip_separators].
  destruct (hex_char_plain _ (hex_digit_hi_hex b)) as (_ & _ & ->).
  destruct (hex_char_plain _ (hex_digit_lo_hex b)) as (_ & _ & ->).
  done.
Qed.

Lemma layout_cons (k : nat) (b : Byte.byte) (rest : list Byte.byte) :
  layout k (b :: rest)
  = token b +:+ ((match rest with [] => "" | _ :: _ => ", " end)
       +:+ ((if S k mod 16 =? 0 then newline else "") +:+ layout (S k) rest)).
Proof. reflexivity. Qed.

Lemma layout_no_x_head (k : nat) (bs : list Byte.byte) : no_x_head (layout k bs).
Proof. destruct bs; [done |]. rewrite layout_cons, token_app. done. Qed.

Lemma strip_layout (k : nat) (bs : list Byte.byte) :
  strip_separators (strip_0x (layout k bs)) = hexlify bs.
Proof.
  revert k. induction bs as [|b rest IH]; intros k; [done |].
  rewrite layout_cons.
  pose proof (layout_no_x_head (S k) rest) as Hx.
  specialize (IH (S k)).
  rewrite strip_0x_token.
  - rewrite strip_separators_pair. cbn [hexlify]. f_equal.
    rewrite <- IH.
    destruct rest as [|b' rest'], (S k mod 16 =? 0);
      rewrite ?sapp_nil_l; unfold newline; rewrite ?sapp_cons, ?sapp_nil_l;
      rewrite ?strip_0x_cons by (by left); done.
  - destruct rest as [|b' rest'], (S k mod 16 =? 0);
      rewrite ?sapp_nil_l; try done.
Qed.

(** C1 (hex round-trip). For every byte sequence, the empty one
    included, the encoder of the common-library step returns a text, and
    decoding that text (drop each "0x", drop commas, spaces and
    newlines, read two hex digits per byte) gives the bytes back. *)
Theorem hex_round_trip (binData : list Byte.byte) :
  ∃ text, bin2hex_common binData = Done text ∧ decode text = Some binData.
Proof.
  exists (layout 0 binData). split; [apply bin2hex_common_layout |].
  unfold decode. rewrite strip_layout. apply unhexlify_hexlify.
Qed.

(** C9 (one encoder, three copies). The three inlined passes, of the
    special-feature step, of the common-library step and of the
    per-variant step, return the same text for every byte sequence. *)
Theorem bin2hex_passes_agree (binData : list Byte.byte) :
  ∃ text,
    bin2hex_special binData = Done text ∧
    bin2hex_common binData = Done text ∧
    bin2hex_variant binData = Done text.
Proof.
  exists (layout 0 binData).
  pose proof (bin2hex_common_layout binData) as H.
  repeat split; [rewrite bin2hex_special_common | | rewrite bin2hex_variant_common];
    exact H.
Qed.

(** *** Counting and placing the newlines *)

Lemma count_char_app (c : ascii) (a b : string) :
  count_char c (a +:+ b) = count_char c a + count_char c b.
Proof.
  induction a as [|x a IH]; [done |].
  rewrite sapp_cons. cbn [count_char]. rewrite IH. lia.
Qed.

Lemma remove_char_app (c : ascii) (a b : string) :
  remove_char c (a +:+ b) = remove_char c a +:+ remove_char c b.
Proof.
  induction a as [|x a IH]; [done |].
  rewrite sapp_cons. cbn [remove_char]. rewrite IH.
  by destruct (Ascii.eqb x c).
Qed.

Lemma token_no_newline (b : Byte.byte) :
  count_char nl (token b) = 0 ∧ remove_char nl (token b) = token b.
Proof.
  unfold token, hex_pair. cbn [count_char remove_char].
  destruct (hex_char_plain _ (hex_digit_hi_hex b)) as (_ & -> & _).
  destruct (hex_char_plain _ (hex_digit_lo_hex b)) as (_ & -> & _).
  done.
Qed.

Lemma div16_succ (k : nat) :
  S k / 16 = k / 16 + (if S k mod 16 =? 0 then 1 else 0).
Proof.
  pose proof (Nat.div_mod_eq k 16) as Hk.
  pose proof (Nat.mod_upper_bound k 16 ltac:(lia)) as Hr.
  destruct (Nat.eq_dec (k mod 16) 15) as [E | E].
  - assert (S k = 16 * (k / 16 + 1) + 0) as HS by lia.
    rewrite <- (Nat.mod_unique (S k) 16 (k / 16 + 1) 0) by lia.
    rewrite <- (Nat.div_unique (S k) 16 (k / 16 + 1) 0) by lia.
    done.
  - assert (S k = 16 * (k / 16) + S (k mod 16)) as HS by lia.
    rewrite <- (Nat.mod_unique (S k) 16 (k / 16) (S (k mod 16))) by lia.
    rewrite <- (Nat.div_unique (S k) 16 (k / 16) (S (k mod 16))) by lia.
    simpl. lia.
Qed.

Lemma count_newlines_layout (k : nat) (bs : list Byte.byte) :
  k / 16 + count_char nl (layout k bs) = (k + length bs) / 16.
Proof.
  revert k. induction bs as [|b rest IH]; intros k.
  - simpl. by rewrite !Nat.add_0_r.
  - rewrite layout_cons, !count_char_app.
    rewrite (proj1 (token_no_newline b)).
    specialize (IH (S k)). rewrite div16_succ in IH.
    replace (k + length (b :: rest)) with (S k + length rest)
      by (simpl; lia).
    rewrite <- IH.
    destruct rest, (S k mod 16 =? 0); simpl; lia.
Qed.

Lemma remove_newlines_layout (k : nat) (bs : list Byte.byte) :
  remove_char nl (layout k bs) = join ", " (map token bs).
Proof.
  revert k. induction bs as [|b rest IH]; intros k; [done |].
  rewrite layout_cons, !remove_char_app, IH.
  rewrite (proj2 (token_no_newline b)).
  destruct rest as [|b' rest'], (S k mod 16 =? 0); cbn [map join];
    rewrite ?sapp_nil_r; reflexivity.
Qed.

Lemma get_shift (pre s : string) (q : nat) :
  String.get (String.length pre + q) (pre +:+ s) = String.get q s.
Proof.
  rewrite sget_app.
  destruct (Nat.ltb_spec (String.length pre + q) (String.length pre)); [lia |].
  f_equal. lia.
Qed.

Lemma token_at_shift (pre s : string) (q : nat) :
  token_at s q → token_at (pre +:+ s) (String.length pre + q).
Proof.
  unfold token_at. rewrite <- !Nat.add_assoc, !get_shift. done.
Qed.

Lemma follows_separator_shift (pre s : string) (p : nat) :
  follows_separator s p → follows_separator (pre +:+ s) (String.length pre + p).
Proof.
  intros (Hp & H2 & H1). split; [lia |].
  replace (String.length pre + p - 2) with (String.length pre + (p - 2)) by lia.
  replace (String.length pre + p - 1) with (String.length pre + (p - 1)) by lia.
  by rewrite !get_shift.
Qed.

Lemma wrap_point_shift (n : nat) (pre s : string) (p : nat) :
  wrap_point n s p → wrap_point n (pre +:+ s) (String.length pre + p).
Proof.
  intros [[Hs Ht] | (Hlen & Hp & Ht & Hn)]; [left | right].
  - split; [by apply follows_separator_shift |].
    replace (S (String.length pre + p)) with (String.length pre + S p) by lia.
    by apply token_at_shift.
  - destruct Hn as [Hn0 Hn16]. rewrite slength_app.
    split; [lia |]. split; [lia |]. split; [| by split].
    replace (String.length pre + p - 4) with (String.length pre + (p - 4)) by lia.
    by apply token_at_shift.
Qed.

Lemma token_at_layout (k : nat) (b : Byte.byte) (rest : list Byte.byte) :
  token_at (layout k (b :: rest)) 0.
Proof.
  rewrite layout_cons, token_app. unfold token_at. simpl.
  repeat split; eauto using hex_digit_hi_hex, hex_digit_lo_hex.
Qed.

(** Every newline of the layout is at a wrap point. *)
Lemma layout_wrap_points (k : nat) (bs : list Byte.byte) (p : nat) :
  String.get p (layout k bs) = Some nl →
  wrap_point (k + length bs) (layout k bs) p.
Proof.
  revert k p. induction bs as [|b rest IH]; intros k p Hp; [by destruct p |].
  assert (Htail : ∀ q, String.get q (layout (S k) rest) = Some nl →
                       wrap_point (k + length (b :: rest)) (layout (S k) rest) q).
  { intros q Hq. replace (k + length (b :: rest)) with (S k + length rest)
      by (simpl; lia). by apply IH. }
  assert (Hnext : rest ≠ [] → token_at (layout (S k) rest) 0).
  { destruct rest; [done |]. intros _. apply token_at_layout. }
  rewrite layout_cons, token_app in *.
  pose proof (hex_digit_hi_hex b) as Hh.
  pose proof (hex_digit_lo_hex b) as Hl.
  destruct (hex_char_plain _ Hh) as (_ & Hhn & _).
  destruct (hex_char_plain _ Hl) as (_ & Hln & _).
  revert Hh Hl Hhn Hln Hp.
  generalize (hex_digit (N.shiftr (Byte.to_N b) 4)) as h.
  generalize (hex_digit (N.land (Byte.to_N b) 15)) as l.
  intros l h Hh Hl Hhn Hln Hp.
  assert (Hmod : (S k mod 16 =? 0) = true → 0 < k + 1 ∧ (k + 1) mod 16 = 0).
  { intros E%Nat.eqb_eq. replace (k + 1) with (S k) by lia. lia. }
  destruct rest as [|b' rest'] eqn:Hrest, (S k mod 16 =? 0) eqn:Hm.
  - (* last byte, end of a line *)
    cbn [layout] in *. unfold newline in *. rewrite !sapp_nil_l in *.
    destruct p as [|[|[|[|[|p]]]]]; simpl in Hp; simplify_eq;
      try (by rewrite ?Ascii.eqb_refl in * ); try (by destruct p).
    right. simpl. repeat split; try lia; try tauto; eauto.
  - (* last byte, inside a line *)
    cbn [layout] in *. rewrite !sapp_nil_l in *.
    destruct p as [|[|[|[|p]]]]; simpl in Hp; simplify_eq;
      try (by rewrite ?Ascii.eqb_refl in * ); try (by destruct p).
  - (* sixteenth byte of a line, more to come *)
    revert Hp Htail Hnext. generalize (layout (S k) (b' :: rest')) as tail.
    intros tail Hp Htail Hnext. unfold newline in *.
    rewrite ?sapp_cons, ?sapp_nil_l in *.
    destruct p as [|[|[|[|[|[|[|p]]]]]]]; simpl in Hp; simplify_eq;
      try (by rewrite ?Ascii.eqb_refl in * ).
    + left. split; [split; [lia | by simpl] |].
      apply (token_at_shift
               (String "0" (String "x" (String h (String l (String ","
                  (String " " (String nl ""))))))) tail 0).
      by apply Hnext.
    + apply (wrap_point_shift _
               (String "0" (String "x" (String h (String l (String ","
                  (String " " (String nl ""))))))) tail p).
      by apply Htail.
  - (* any other byte, more to come *)
    revert Hp Htail Hnext. generalize (layout (S k) (b' :: rest')) as tail.
    intros tail Hp Htail Hnext.
    rewrite ?sapp_cons, ?sapp_nil_l in *.
    destruct p as [|[|[|[|[|[|p]]]]]]; simpl in Hp; simplify_eq;
      try (by rewrite ?Ascii.eqb_refl in * ).
    apply (wrap_point_shift _
             (String "0" (String "x" (String h (String l (String ","
                (String " " "")))))) tail p).
    by apply Htail.
Qed.

Lemma get_length (s : string) : String.get (String.length s) s = None.
Proof. induction s; simpl; done. Qed.

Lemma wrap_point_between (n : nat) (text : string) (p : nat) :
  wrap_point n text p → between_tokens text p.
Proof.
  intros [[Hs Ht] | (Hlen & Hp & Ht & _)]; split; auto.
  left. rewrite Hlen. apply get_length.
Qed.



(** C4 (token format). The encoder of the special-library step returns a
    text; the empty input gives the empty text; with the newlines left
    out, the text is the tokens of the bytes, in order, joined by ", "
    (so no separator follows the last token); and each token is "0x"
    followed by the two lowercase hex digits of its byte, high digit
    first. *)
Theorem hex_token_format (binData : list Byte.byte) :
  bin2hex_special [] = Done "" ∧
  (∃ text,
     bin2hex_special binData = Done text ∧
     remove_char nl text = join ", " (map token binData)) ∧
  (∀ b : Byte.byte, ∃ h l,
     token b = String "0" (String "x" (String h (String l ""))) ∧
     hex_value h = Some (Byte.to_N b / 16)%N ∧
     hex_value l = Some (Byte.to_N b mod 16)%N).
Proof.
  split; [reflexivity |]. split.
  - exists (layout 0 binData). split.
    + rewrite bin2hex_special_common. apply bin2hex_common_layout.
    + apply remove_newlines_layout.
  - intros b. eexists _, _. split; [reflexivity |]. apply hex_digits_value.
Qed.

End HexFacts.

(** ** Paths and directory listings *)

Section OsFacts.
Import Py Os.

Lemma bind_eq {A B : Type} (m : M A) (k : A → M B) (s : state) :
  (m ≫= k) s
  = match m s with
    | (Ok a, s') => k a s'
    | (Raise e, s') => (Raise e, s')
    end.
Proof. reflexivity. Qed.

Lemma bind_Ok_inv {A B : Type} (m : M A) (k : A → M B) (s s' : state) (b : B) :
  (m ≫= k) s = (Ok b, s') →
  ∃ a s1, m s = (Ok a, s1) ∧ k a s1 = (Ok b, s').
Proof.
  rewrite bind_eq. destruct (m s) as [[a | e] s1]; [eauto | discriminate].
Qed.

Lemma split_slash_plain (f : string) :
  no_slash f = true → split_slash f = [f].
Proof.
  induction f as [|c f IH]; [done |].
  unfold no_slash. simpl. intros [Hc Hf]%andb_true_iff.
  destruct (Ascii.eqb c "/"); [done |].
  by rewrite (IH Hf).
Qed.

Lemma split_slash_app (g r : string) :
  no_slash g = true →
  split_slash (g +:+ String "/" r) = g :: split_slash r.
Proof.
  induction g as [|c g IH]; [done |].
  unfold no_slash. simpl. intros [Hc Hg]%andb_true_iff.
  change (String c g +:+ String "/" r) with (String c (g +:+ String "/" r)).
  cbn [split_slash].
  destruct (Ascii.eqb c "/"); [done |].
  by rewrite (IH Hg).
Qed.

Lemma valid_name_no_slash (f : string) : valid_name f = true → no_slash f = true.
Proof. unfold valid_name. by intros [_ ?]%andb_true_iff. Qed.

Lemma walk_name (d : list string) (f : string) :
  valid_name f = true → walk d f = d ++ [f].
Proof.
  unfold valid_name, walk.
  intros [[[H1 H2]%andb_true_iff H3]%andb_true_iff _]%andb_true_iff.
  apply negb_true_iff in H1, H2, H3. by rewrite H1, H2, H3.
Qed.

(** A plain name resolves to the entry of that name. *)
Lemma resolve_name (d : list string) (f : string) :
  valid_name f = true → resolve d f = d ++ [f].
Proof.
  intros Hf. unfold resolve.
  rewrite split_slash_plain by by apply valid_name_no_slash.
  simpl. by apply walk_name.
Qed.

(** [g + "/" + f] resolves to the entry [f] of the directory [g]. *)
Lemma resolve_in_dir (d : list string) (g f : string) :
  valid_name g = true → valid_name f = true →
  resolve d (g +:+ "/" +:+ f) = d ++ [g; f].
Proof.
  intros Hg Hf. unfold resolve.
  change ("/" +:+ f) with (String "/" f).
  rewrite split_slash_app by by apply valid_name_no_slash.
  rewrite split_slash_plain by by apply valid_name_no_slash.
  simpl. rewrite !walk_name by done. by rewrite <- app_assoc.
Qed.

Lemma resolve_dot_slash (d : list string) : resolve d "./" = d.
Proof. reflexivity. Qed.

Lemma resolve_dot_slash_name (d : list string) (f : string) :
  valid_name f = true → resolve d ("./" +:+ f) = d ++ [f].
Proof.
  intros Hf. unfold resolve.
  change ("./" +:+ f) with ("." +:+ String "/" f).
  rewrite split_slash_app by done.
  rewrite split_slash_plain by by apply valid_name_no_slash.
  simpl. by apply walk_name.
Qed.

Lemma resolve_up (d : list string) (g : string) : resolve (d ++ [g]) "./.." = d.
Proof.
  unfold resolve. simpl. unfold walk at 1. simpl. unfold walk. simpl.
  apply removelast_last.
Qed.

(** *** Listings *)

Lemma strip_dir_app (d p : list string) : strip_dir d (d ++ p) = Some p.
Proof.
  induction d as [|x d IH]; [done |]. simpl. by rewrite String.eqb_refl.
Qed.

Lemma strip_dir_Some (d p r : list string) : strip_dir d p = Some r → p = d ++ r.
Proof.
  revert p. induction d as [|x d IH]; intros p; simpl.
  - by intros [= ->].
  - destruct p as [|y p]; [done |].
    destruct (String.eqb_spec x y) as [-> |]; [| done].
    intros H. by rewrite (IH _ H).
Qed.

Lemma child_name_Some (d p : list string) (n : string) :
  child_name d p = Some n ↔ p = d ++ [n].
Proof.
  unfold child_name. split.
  - destruct (strip_dir d p) as [[|m [|? ?]] |] eqn:E; try done.
    intros [= ->]. by apply strip_dir_Some.
  - intros ->. by rewrite strip_dir_app.
Qed.

(** A name is listed in [d] exactly when the directory has that entry. *)
Lemma elem_of_entries (t : gmap (list string) node) (d : list string) (n : string) :
  n ∈ entries t d ↔ is_Some (t !! (d ++ [n])).
Proof.
  unfold entries. rewrite list_elem_of_omap. split.
  - intros (p & Hp & Hn). apply child_name_Some in Hn as ->.
    apply list_elem_of_fmap in Hp as ([p v] & -> & Hpv).
    apply elem_of_map_to_list in Hpv. simpl. eauto.
  - intros [v Hv]. exists (d ++ [n]). split; [| by apply child_name_Some].
    apply list_elem_of_fmap. exists (d ++ [n], v). split; [done |].
    by apply elem_of_map_to_list.
Qed.

Lemma NoDup_entries (t : gmap (list string) node) (d : list string) :
  NoDup (entries t d).
Proof.
  unfold entries.
  assert (Hk : NoDup (map fst (map_to_list t))) by apply NoDup_fst_map_to_list.
  induction Hk as [|p ps Hp Hps IH]; simpl; [constructor |].
  destruct (child_name d p) as [n |] eqn:E; [| done].
  constructor; [| done].
  intros (q & Hq & Hn)%list_elem_of_omap.
  apply child_name_Some in E, Hn. by subst.
Qed.

End OsFacts.

(** ** The steps of the script *)

Section ScriptFacts.
Import Py Os Script Obs.

Context (LLVM_AS_DIR LLVM_LINK_DIR OS_TYPE : string).
Context (run : program) (genArith genImage : generator).

Local Abbreviation LLVM_AS := (Script.LLVM_AS LLVM_AS_DIR).
Local Abbreviation LLVM_LINK := (Script.LLVM_LINK LLVM_LINK_DIR).
Local Abbreviation call := (Script.call OS_TYPE run).
Local Abbreviation package_special := (Script.package_special LLVM_LINK_DIR OS_TYPE run).
Local Abbreviation package_common := (Script.package_common LLVM_LINK_DIR OS_TYPE run).
Local Abbreviation package_variant := (Script.package_variant LLVM_LINK_DIR OS_TYPE run).
Local Abbreviation assemble_common := (Script.assemble_common LLVM_AS_DIR OS_TYPE run).
Local Abbreviation assemble_variant := (Script.assemble_variant LLVM_AS_DIR OS_TYPE run).
Local Abbreviation generate_common := (Script.generate_common genArith).
Local Abbreviation generate_variant := (Script.generate_variant genImage).
Local Abbreviation variant :=
  (Script.variant LLVM_AS_DIR LLVM_LINK_DIR OS_TYPE run genImage).
Local Abbreviation main :=
  (Script.main LLVM_AS_DIR LLVM_LINK_DIR OS_TYPE run genArith genImage).

Local Abbreviation shell_flag := (Obs.shell_flag OS_TYPE).

(** *** The primitives, on a state spelled out *)

Lemma listdir_root (t : gmap (list string) node) (l : list event) :
  listdir "./" (mkState [] t l) = (Ok (entries t []), mkState [] t l).
Proof. reflexivity. Qed.

Lemma call_eq (cmd : string) (s : state) :
  call cmd s
  = let s' := mkState (cwd s) (run shell_flag cmd (fs s)).2
                (log s ++ [Spawned shell_flag cmd]) in
    match (run shell_flag cmd (fs s)).1 with
    | Exited _ => (Ok tt, s')
    | NotStarted => (Raise SpawnError, s')
    end.
Proof.
  unfold Script.call, Obs.shell_flag.
  destruct (String.eqb OS_TYPE "win"); simpl;
    rewrite bind_eq; unfold subprocess_call;
    destruct (run _ cmd (fs s)) as [[status |] t']; reflexivity.
Qed.

(** *** Searching for a special object *)

Lemma find_special_snoc (feature : string) (names : list string) (f : string) :
  find_special feature (names ++ [f])
  = if is_special feature f then f else find_special feature names.
Proof. unfold find_special. by rewrite fold_left_app. Qed.

(** The search keeps the last listed name that passes the test. *)
Lemma find_special_last (feature : string) (names : list string) :
  find_special feature names
  = default "" (last (filter (λ f, is_special feature f) names)).
Proof.
  induction names as [|f names IH] using rev_ind; [done |].
  rewrite find_special_snoc, filter_app, IH.
  rewrite filter_cons, filter_nil.
  destruct (is_special feature f) eqn:E; simpl;
    [by rewrite last_snoc | by rewrite app_nil_r].
Qed.

Lemma find_special_none (feature : string) (names : list string) :
  (∀ f, f ∈ names → is_special feature f = false) →
  find_special feature names = "".
Proof.
  induction names as [|f names IH] using rev_ind; intros H; [done |].
  rewrite find_special_snoc, H by set_solver.
  apply IH. intros g Hg. apply H. set_solver.
Qed.

(** *** Collecting the objects to link *)

Lemma collect_common_spaced (names : list string) :
  collect_common names = spaced (filter (λ f, endswith f ".bc") names).
Proof.
  unfold collect_common.
  enough (H : ∀ acc,
    fold_left (λ bcFiles f,
                 if endswith f ".bc" then bcFiles +:+ (f +:+ " ") else bcFiles)
      names acc
    = acc +:+ spaced (filter (λ f, endswith f ".bc") names)) by apply (H "").
  induction names as [|f names IH]; intros acc; simpl.
  - by rewrite sapp_nil_r.
  - rewrite IH, filter_cons. destruct (endswith f ".bc"); simpl; [| done].
    by rewrite !sapp_assoc.
Qed.

Lemma collect_variant_spaced (gfx : string) (names : list string) :
  collect_variant gfx names
  = spaced (map (λ f, gfx +:+ "/" +:+ f)
              (filter (λ f, endswith f ".bc") names)).
Proof.
  unfold collect_variant.
  enough (H : ∀ acc,
    fold_left (λ bcFiles f,
                 if endswith f ".bc"
                 then bcFiles +:+ (gfx +:+ "/" +:+ f +:+ " ") else bcFiles)
      names acc
    = acc +:+ spaced (map (λ f, gfx +:+ "/" +:+ f)
                        (filter (λ f, endswith f ".bc") names)))
    by apply (H "").
  induction names as [|f names IH]; intros acc; simpl.
  - by rewrite sapp_nil_r.
  - rewrite IH, filter_cons. destruct (endswith f ".bc"); simpl; [| done].
    by rewrite !sapp_assoc.
Qed.

(** *** Link, read, encode, write: the part the three packaging steps
    share, followed by whatever [rest] removes *)

Lemma embed_eq (enc : list Byte.byte → Hex.loop_result)
    (cmd libFile hFile : string) (rest : M unit)
    (t : gmap (list string) node) (l : list event) :
  (call cmd;;
   binData ← read_binary libFile;
   fHex ← open_w hFile;
   hexText ← hex_text (enc binData);
   write_close fHex hexText;;
   rest) (mkState [] t l)
  = let t1 := (run shell_flag cmd t).2 in
    let l1 := l ++ [Spawned shell_flag cmd] in
    let lib := resolve [] libFile in
    let h := resolve [] hFile in
    match (run shell_flag cmd t).1 with
    | NotStarted => (Raise SpawnError, mkState [] t1 l1)
    | Exited _ =>
        if is_dir t1 lib then (Raise IsADirectoryError, mkState [] t1 l1)
        else match t1 !! lib with
             | Some (File data) =>
                 if is_dir t1 h then (Raise IsADirectoryError, mkState [] t1 l1)
                 else if is_dir t1 (removelast h) then
                   match enc data with
                   | Hex.Done text =>
                       rest (mkState []
                               (<[h := File (list_byte_of_string text)]>
                                  (<[h := File []]> t1))
                               ((l1 ++ [Opened h]) ++ [Written h text]))
                   | _ =>
                       (Raise IndexError,
                        mkState [] (<[h := File []]> t1) (l1 ++ [Opened h]))
                   end
                 else match t1 !! removelast h with
                      | Some _ => (Raise NotADirectoryError, mkState [] t1 l1)
                      | None => (Raise FileNotFoundError, mkState [] t1 l1)
                      end
             | _ => (Raise FileNotFoundError, mkState [] t1 l1)
             end
    end.
Proof.
  rewrite bind_eq, call_eq. cbn [cwd fs log].
  destruct (run shell_flag cmd t) as [[status |] t1]; [| reflexivity].
  cbn [fst snd]. rewrite bind_eq. unfold read_binary at 1. cbn [cwd fs log].
  destruct (is_dir t1 (resolve [] libFile)); [reflexivity |].
  destruct (t1 !! resolve [] libFile) as [[data |] |]; try reflexivity.
  rewrite bind_eq. unfold open_w at 1. cbn [cwd fs log].
  destruct (is_dir t1 (resolve [] hFile)); [reflexivity |].
  destruct (is_dir t1 (removelast (resolve [] hFile)));
    [| destruct (t1 !! removelast (resolve [] hFile)); reflexivity].
  rewrite bind_eq. destruct (enc data); reflexivity.
Qed.

(** A run of the shared part that returns has started the program, found
    the library, and written its encoding to the header before [rest]. *)
Lemma embed_Ok (enc : list Byte.byte → Hex.loop_result)
    (cmd libFile hFile : string) (rest : M unit)
    (t : gmap (list string) node) (l : list event) (s' : state) :
  (call cmd;;
   binData ← read_binary libFile;
   fHex ← open_w hFile;
   hexText ← hex_text (enc binData);
   write_close fHex hexText;;
   rest) (mkState [] t l) = (Ok tt, s') →
  let t1 := (run shell_flag cmd t).2 in
  let h := resolve [] hFile in
  ∃ data text,
    t1 !! resolve [] libFile = Some (File data) ∧
    enc data = Hex.Done text ∧
    rest (mkState []
            (<[h := File (list_byte_of_string text)]> (<[h := File []]> t1))
            (l ++ [Spawned shell_flag cmd; Opened h; Written h text]))
    = (Ok tt, s').
Proof.
  rewrite embed_eq. cbn zeta.
  destruct (run shell_flag cmd t) as [[status |] t1]; cbn [fst snd]; [| done].
  destruct (is_dir t1 (resolve [] libFile)); [done |].
  destruct (t1 !! resolve [] libFile) as [[data |] |]; [| done | done].
  destruct (is_dir t1 (resolve [] hFile)); [done |].
  destruct (is_dir t1 (removelast (resolve [] hFile)));
    [| destruct (t1 !! removelast (resolve [] hFile)); done].
  destruct (enc data) as [text | |] eqn:E; [| done | done].
  intros H. exists data, text. repeat split; [done |].
  by rewrite <- !app_assoc in H.
Qed.

(** *** Removing files *)

Lemma remove_Ok (p : string) (d : list string) (t : gmap (list string) node)
    (l : list event) (s' : state) :
  remove p (mkState d t l) = (Ok tt, s') →
  is_Some (t !! resolve d p) ∧
  s' = mkState d (delete (resolve d p) t) (l ++ [Removed (resolve d p)]).
Proof.
  unfold remove. cbn [cwd fs log].
  destruct (is_dir t (resolve d p)); [done |].
  destruct (t !! resolve d p) eqn:E; [| done].
  intros [= <-]. eauto.
Qed.

Lemma for_each_remove_Ok (names : list string) (d : list string)
    (t : gmap (list string) node) (l : list event) (s' : state) :
  for_each names (λ f, remove f) (mkState d t l) = (Ok tt, s') →
  s' = mkState d (fold_left (λ t f, delete (resolve d f) t) names t)
         (l ++ map (λ f, Removed (resolve d f)) names).
Proof.
  revert t l. induction names as [|f names IH]; intros t l; simpl.
  - intros [= <-]. by rewrite app_nil_r.
  - intros (a & s1 & H1 & H2)%bind_Ok_inv. destruct a.
    apply remove_Ok in H1 as [_ ->].
    apply IH in H2 as ->. by rewrite <- app_assoc.
Qed.

Lemma is_special_nonempty (feature f : string) :
  is_special feature f = true → f ≠ "".
Proof. intros H ->. unfold is_special in H. by destruct feature. Qed.

Lemma all_false (P : string → bool) (l : list string) :
  forallb (λ f, negb (P f)) l = true → ∀ f, f ∈ l → P f = false.
Proof.
  rewrite forallb_forall. intros H f Hf%list_elem_of_In.
  by apply negb_true_iff, H.
Qed.

(** C7 (optional feature). When no listed name of the working root
    passes the test of a special feature, the packaging step of that
    feature returns without an error and leaves the files and the trace
    as they were: nothing is started, no header is created. Whatever
    comes next (the other feature, then the common library) runs from
    that same state. *)
Theorem special_skipped (feature : string) (t : gmap (list string) node)
    (l : list event) (k : M unit) :
  (∀ f, f ∈ entries t [] → is_special feature f = false) →
  package_special feature (mkState [] t l) = (Ok tt, mkState [] t l) ∧
  (package_special feature;; k) (mkState [] t l) = k (mkState [] t l).
Proof.
  intros Hnone.
  assert (H : package_special feature (mkState [] t l) = (Ok tt, mkState [] t l)).
  { unfold Script.package_special. rewrite bind_eq, listdir_root.
    by rewrite find_special_none. }
  split; [done |]. by rewrite bind_eq, H.
Qed.

(** *** What the removals add to the trace, whatever the outcome *)

Lemma remove_log (p : string) (s : state) :
  ∃ evs, log (remove p s).2 = log s ++ evs ∧ commands evs = [] ∧
         headers_written evs = [] ∧ files_opened evs = [].
Proof.
  unfold remove.
  destruct (is_dir (fs s) (resolve (cwd s) p));
    [exists []; by rewrite app_nil_r |].
  destruct (fs s !! resolve (cwd s) p);
    [by eexists [_] | exists []; by rewrite app_nil_r].
Qed.

Lemma for_each_remove_log (names : list string) (s : state) :
  ∃ evs, log (for_each names (λ f, remove f) s).2 = log s ++ evs ∧
         commands evs = [] ∧ headers_written evs = [] ∧ files_opened evs = [].
Proof.
  revert s. induction names as [|f names IH]; intros s; simpl.
  - exists []. by rewrite app_nil_r.
  - rewrite bind_eq.
    destruct (remove_log f s) as (e1 & H1 & Hc1 & Hh1 & Ho1).
    destruct (remove f s) as [[[] | e] s1]; simpl in *; [| eauto].
    destruct (IH s1) as (e2 & H2 & Hc2 & Hh2 & Ho2).
    exists (e1 ++ e2). rewrite H2, H1, app_assoc.
    unfold commands, headers_written, files_opened in *.
    rewrite !omap_app, Hc1, Hc2, Hh1, Hh2, Ho1, Ho2. done.
Qed.

Lemma endswith_Emu_bc (f : string) :
  endswith f "Emu.bc" = true → endswith f ".bc" = true.
Proof.
  induction f as [|c f IH]; [done |].
  cbn [endswith]. intros [E%String.eqb_eq | H]%orb_true_iff.
  - injection E as -> ->. reflexivity.
  - rewrite (IH H). apply orb_true_r.
Qed.

Lemma is_special_bc (feature f : string) :
  is_special feature f = true → endswith f ".bc" = true.
Proof.
  unfold is_special. intros [_ H]%andb_true_iff. by apply endswith_Emu_bc.
Qed.

Lemma tail_log (names : list string) (p : string) (s : state) :
  ∃ evs, log ((for_each names (λ f, remove f);; remove p) s).2 = log s ++ evs ∧
         quiet evs.
Proof.
  rewrite bind_eq.
  destruct (for_each_remove_log names s) as (e1 & H1 & Hq1).
  destruct (for_each names (λ f, remove f) s) as [[[] | e] s1]; simpl in *;
    [| by eauto].
  destruct (remove_log p s1) as (e2 & H2 & Hc2 & Hh2 & Ho2).
  exists (e1 ++ e2). rewrite H2, H1, app_assoc. split; [done |].
  destruct Hq1 as (Hc1 & Hh1 & Ho1).
  unfold quiet, commands, headers_written, files_opened in *.
  rewrite !omap_app, Hc1, Hc2, Hh1, Hh2, Ho1, Ho2. done.
Qed.

(** Whatever the outcome, the shared part starts exactly its command,
    and opens and writes at most its own header. *)
Lemma embed_log (enc : list Byte.byte → Hex.loop_result)
    (cmd libFile hFile : string) (rest : M unit)
    (t : gmap (list string) node) (l : list event) :
  (∀ s, ∃ evs, log (rest s).2 = log s ++ evs ∧ quiet evs) →
  ∃ evs,
    log ((call cmd;;
          binData ← read_binary libFile;
          fHex ← open_w hFile;
          hexText ← hex_text (enc binData);
          write_close fHex hexText;;
          rest) (mkState [] t l)).2
    = l ++ Spawned shell_flag cmd :: evs ∧
    commands evs = [] ∧
    (headers_written evs = [] ∨
     ∃ data text,
       (run shell_flag cmd t).2 !! resolve [] libFile = Some (File data) ∧
       enc data = Hex.Done text ∧
       headers_written evs = [(resolve [] hFile, text)]).
Proof.
  intros Hrest. rewrite embed_eq. cbn zeta.
  destruct (run shell_flag cmd t) as [[status |] t1]; cbn [fst snd];
    [| exists []; auto].
  destruct (is_dir t1 (resolve [] libFile)); [exists []; auto |].
  destruct (t1 !! resolve [] libFile) as [[data |] |];
    [| exists []; auto | exists []; auto].
  destruct (is_dir t1 (resolve [] hFile)); [exists []; auto |].
  destruct (is_dir t1 (removelast (resolve [] hFile)));
    [| destruct (t1 !! removelast (resolve [] hFile)); exists []; auto].
  destruct (enc data) as [text | |] eqn:E.
  - match goal with |- context [rest ?s] =>
      destruct (Hrest s) as (evs & Hlog & Hc & Hh & Ho) end.
    rewrite Hlog. cbn [log].
    exists (Opened (resolve [] hFile) :: Written (resolve [] hFile) text :: evs).
    rewrite <- !app_assoc. split; [done |].
    split; [exact Hc |]. right. exists data, text.
    split; [done |]. split; [done |].
    change (headers_written (Opened ?a :: Written ?b ?c :: evs))
      with ((b, c) :: headers_written evs).
    by rewrite Hh.
  - eexists [_]. cbn [snd log]. rewrite <- app_assoc. auto.
  - eexists [_]. cbn [snd log]. rewrite <- app_assoc. auto.
Qed.

(** The common step starts the linker on every listed [.bc] name. *)
Lemma package_common_log (t : gmap (list string) node) (l : list event) :
  ∃ evs,
    log (package_common (mkState [] t l)).2
    = l ++ Spawned shell_flag
             (LLVM_LINK +:+ " -o=" +:+ "glslEmu.lib" +:+ " "
              +:+ spaced (filter (λ f, endswith f ".bc") (entries t [])))
           :: evs ∧
    commands evs = [].
Proof.
  unfold Script.package_common. rewrite bind_eq, listdir_root.
  rewrite collect_common_spaced.
  edestruct embed_log as (evs & H & Hc & _); [apply tail_log |].
  exists evs. split; [apply H | done].
Qed.

Lemma listed_valid (t : gmap (list string) node) (d : list string) (f : string) :
  wf_names t → f ∈ entries t d → valid_name f = true.
Proof.
  intros Hwf Hf%elem_of_entries. apply Hwf in Hf.
  rewrite Forall_app, Forall_singleton in Hf. by destruct Hf.
Qed.

(** C10 (several objects for one special feature). When the listing of
    the working root has names that pass a special feature's test, a
    step that returns has linked exactly one of them, the last listed,
    into the feature's library, and has removed that object and the
    library and nothing else; the script leaves every other such object
    as the linker left it. Such an object ends in ".bc", so the common
    step, listing it, passes it to the linker with the other objects. *)
Theorem special_takes_last (feature bc : string)
    (t : gmap (list string) node) (l : list event) (s' : state) :
  feature ∈ SPECIAL_EMUS →
  wf_names t →
  last (filter (λ f, is_special feature f) (entries t [])) = Some bc →
  package_special feature (mkState [] t l) = (Ok tt, s') →
  let lib := "glsl" +:+ feature +:+ "Emu.lib" in
  let h := "g_llpcGlsl" +:+ feature +:+ "EmuLib.h" in
  let cmd := LLVM_LINK +:+ " -o=" +:+ lib +:+ " " +:+ bc in
  let t1 := (run shell_flag cmd t).2 in
  (∃ text,
     log s' = l ++ [Spawned shell_flag cmd; Opened [h]; Written [h] text;
                    Removed [bc]; Removed [lib]]) ∧
  (∀ m, m ∈ entries t [] → is_special feature m = true → m ≠ bc →
        fs s' !! [m] = t1 !! [m]) ∧
  (∀ m t2 l2, m ∈ entries t2 [] → is_special feature m = true →
     ∃ bcs evs,
       m ∈ bcs ∧
       log (package_common (mkState [] t2 l2)).2
       = l2 ++ Spawned shell_flag
                 (LLVM_LINK +:+ " -o=" +:+ "glslEmu.lib" +:+ " " +:+ spaced bcs)
               :: evs ∧
       commands evs = []).
Proof.
  intros Hfeature Hwf Hlast Hrun lib h cmd t1.
  assert (Hbc : bc ∈ entries t [] ∧ is_special feature bc = true).
  { destruct (proj1 (last_Some _ _) Hlast) as [pre Hpre].
    assert (Hin : bc ∈ filter (λ f, is_special feature f) (entries t []))
      by (rewrite Hpre, elem_of_app; right; constructor).
    apply list_elem_of_filter in Hin as [Hs Hin]. split; [done |].
    by apply Is_true_true. }
  destruct Hbc as [Hbc_in Hbc_sp].
  pose proof (listed_valid _ _ _ Hwf Hbc_in) as Hvalid.
  assert (Hfind : find_special feature (entries t []) = bc)
    by (by rewrite find_special_last, Hlast).
  assert (Hne : String.eqb bc "" = false)
    by (by apply String.eqb_neq, (is_special_nonempty feature)).
  unfold Script.package_special in Hrun.
  rewrite bind_eq, listdir_root, Hfind, Hne in Hrun.
  apply embed_Ok in Hrun as (data & text & Hlib & Henc & Hrest).
  apply bind_Ok_inv in Hrest as ([] & s1 & H1 & H2).
  apply remove_Ok in H1 as [_ ->].
  apply remove_Ok in H2 as [_ ->].
  rewrite (resolve_name [] bc Hvalid). simpl app at 1 2.
  assert (Hpaths : resolve [] ("glsl" +:+ feature +:+ "Emu.lib") = [lib] ∧
                   resolve [] ("g_llpcGlsl" +:+ feature +:+ "EmuLib.h") = [h] ∧
                   is_special feature lib = false ∧
                   is_special feature h = false).
  { unfold SPECIAL_EMUS in Hfeature.
    apply elem_of_cons in Hfeature as [-> | Hfeature]; [by vm_compute |].
    apply elem_of_cons in Hfeature as [-> | Hfeature]; [by vm_compute |].
    by apply elem_of_nil in Hfeature. }
  destruct Hpaths as (-> & -> & Hlib_sp & Hh_sp).
  split; [| split].
  - exists text. cbn [log]. by rewrite <- !app_assoc.
  - intros m Hm Hsp Hmne. cbn [fs].
    rewrite !lookup_delete_ne, !lookup_insert_ne; [done | ..];
      intros [= <-]; congruence.
  - intros m t2 l2 Hm Hsp.
    destruct (package_common_log t2 l2) as (evs & Hlog & Hc).
    exists (filter (λ f, endswith f ".bc") (entries t2 [])), evs.
    split; [| done].
    apply list_elem_of_filter. split; [| done].
    apply Is_true_true. by apply (is_special_bc feature).
Qed.

(** *** The per-variant steps *)

Lemma generate_variant_eq (gfx : string) (s : state) :
  ∃ r t', generate_variant gfx s = (r, mkState (cwd s) t' (log s)).
Proof.
  unfold Script.generate_variant, call_generator.
  destruct (genImage _ _ _ (fs s)) as [r t']. eauto.
Qed.

(** Assembling starts programs and does nothing else. *)
Lemma assemble_loop_log (names : list string) (P : string → bool)
    (c : string → string) (s : state) :
  ∃ r t' evs,
    for_each names (λ f, if P f then call (c f) else mret tt) s
    = (r, mkState (cwd s) t' (log s ++ evs)) ∧
    headers_written evs = [] ∧ files_opened evs = [] ∧ removals evs = [].
Proof.
  revert s. induction names as [|f names IH]; intros s; simpl.
  - exists (Ok tt), (fs s), []. rewrite app_nil_r. by destruct s.
  - rewrite bind_eq. destruct (P f).
    + rewrite call_eq. cbn zeta.
      destruct (run shell_flag (c f) (fs s)) as [[status |] t1]; cbn [fst snd].
      * destruct (IH (mkState (cwd s) t1 (log s ++ [Spawned shell_flag (c f)])))
          as (r & t' & evs & -> & Hh & Ho & Hr).
        exists r, t', (Spawned shell_flag (c f) :: evs).
        cbn [cwd log]. by rewrite <- app_assoc.
      * by exists (Raise SpawnError), t1, [Spawned shell_flag (c f)].
    + change (@mret M _ _ tt s) with (@Ok unit tt, s). cbv iota beta.
      destruct (IH s) as (r & t' & evs & -> & H). eauto.
Qed.

Lemma assemble_variant_log (gfx : string) (s : state) :
  ∃ r t' evs,
    assemble_variant gfx s = (r, mkState (cwd s) t' (log s ++ evs)) ∧
    headers_written evs = [] ∧ files_opened evs = [] ∧ removals evs = [].
Proof.
  unfold Script.assemble_variant. rewrite bind_eq. unfold listdir at 1.
  destruct (is_dir (fs s) (resolve (cwd s) gfx)).
  - apply (assemble_loop_log _ (λ f, endswith f ".ll")
             (λ f, LLVM_AS +:+ " " +:+ gfx +:+ "/" +:+ f)).
  - exists (match fs s !! resolve (cwd s) gfx with
            | Some _ => Raise NotADirectoryError
            | None => Raise FileNotFoundError
            end), (fs s), [].
    rewrite app_nil_r.
    destruct (fs s !! resolve (cwd s) gfx); by destruct s.
Qed.

Lemma headers_written_app (l1 l2 : list event) :
  headers_written (l1 ++ l2) = headers_written l1 ++ headers_written l2.
Proof. apply omap_app. Qed.

Lemma commands_app (l1 l2 : list event) :
  commands (l1 ++ l2) = commands l1 ++ commands l2.
Proof. apply omap_app. Qed.

Lemma in_GFX_EMUS (gfx : string) :
  gfx ∈ GFX_EMUS → gfx = "gfx6" ∨ gfx = "gfx9".
Proof.
  unfold GFX_EMUS. intros [-> | H]%elem_of_cons; [by left |].
  apply elem_of_cons in H as [-> | H]; [by right |].
  by apply elem_of_nil in H.
Qed.

Lemma removed_quiet (names : list string) (d : list string) :
  commands (map (λ f, Removed (resolve d f)) names) = [] ∧
  headers_written (map (λ f, Removed (resolve d f)) names) = [].
Proof. induction names; by simpl. Qed.

(** A per-variant packaging step that returns has linked the [.bc]
    names listed in its own directory and written one header there. *)
Lemma package_variant_Ok (gfx : string) (t : gmap (list string) node)
    (l : list event) (s' : state) :
  gfx ∈ GFX_EMUS →
  package_variant gfx (mkState [] t l) = (Ok tt, s') →
  let objects := filter (λ f, endswith f ".bc") (entries t [gfx]) in
  let cmd := LLVM_LINK +:+ " -o=" +:+ variant_lib gfx +:+ " "
             +:+ spaced (map (λ f, gfx +:+ "/" +:+ f) objects) in
  ∃ data text,
    (run shell_flag cmd t).2 !! [gfx; "glslEmu" +:+ capitalize gfx +:+ ".lib"]
    = Some (File data) ∧
    Hex.bin2hex_variant data = Hex.Done text ∧
    cwd s' = [] ∧
    commands (log s') = commands l ++ [cmd] ∧
    headers_written (log s')
    = headers_written l
      ++ [([gfx; "g_llpcGlslEmuLib" +:+ capitalize gfx +:+ ".h"], text)] ∧
    l `prefix_of` log s'.
Proof.
  intros Hgfx Hrun objects cmd.
  assert (Hpaths : resolve [] gfx = [gfx] ∧
                   resolve [] (variant_lib gfx)
                   = [gfx; "glslEmu" +:+ capitalize gfx +:+ ".lib"] ∧
                   resolve [] (variant_header gfx)
                   = [gfx; "g_llpcGlslEmuLib" +:+ capitalize gfx +:+ ".h"]).
  { destruct (in_GFX_EMUS gfx Hgfx) as [-> | ->]; by vm_compute. }
  destruct Hpaths as (Hd & Hl & Hh).
  unfold Script.package_variant in Hrun. rewrite bind_eq in Hrun.
  unfold listdir at 1 in Hrun. cbn [cwd fs log] in Hrun. rewrite Hd in Hrun.
  destruct (is_dir t [gfx]); [| by destruct (t !! [gfx])].
  rewrite collect_variant_spaced in Hrun.
  apply embed_Ok in Hrun as (data & text & Hlib & Henc & Hrest).
  rewrite Hl in Hlib. rewrite Hh in Hrest.
  exists data, text. split; [exact Hlib |]. split; [exact Henc |].
  apply bind_Ok_inv in Hrest as ([] & s1 & H1 & H2).
  apply for_each_remove_Ok in H1. subst s1.
  apply remove_Ok in H2 as [_ ->].
  split; [done |]. cbn [log].
  rewrite !commands_app, !headers_written_app.
  rewrite (proj1 (removed_quiet _ _)), (proj2 (removed_quiet _ _)).
  rewrite !app_nil_r. repeat split; [done.. |].
  rewrite <- !app_assoc. by eexists.
Qed.

Lemma variant_Ok (gfx : string) (t : gmap (list string) node)
    (l : list event) (s' : state) :
  gfx ∈ GFX_EMUS →
  variant gfx (mkState [] t l) = (Ok tt, s') →
  ∃ tb data text,
    let cmd := variant_link_command LLVM_LINK_DIR gfx tb in
    cmd ∈ commands (log s') ∧
    (run shell_flag cmd tb).2 !! [gfx; "glslEmu" +:+ capitalize gfx +:+ ".lib"]
    = Some (File data) ∧
    Hex.bin2hex_variant data = Hex.Done text ∧
    cwd s' = [] ∧
    headers_written (log s')
    = headers_written l
      ++ [([gfx; "g_llpcGlslEmuLib" +:+ capitalize gfx +:+ ".h"], text)] ∧
    l `prefix_of` log s'.
Proof.
  intros Hgfx Hrun. unfold Script.variant in Hrun.
  apply bind_Ok_inv in Hrun as ([] & s1 & Hgen & Hrun).
  destruct (generate_variant_eq gfx (mkState [] t l)) as (r1 & t1 & E1).
  rewrite E1 in Hgen. injection Hgen as -> <-. cbn [cwd log] in Hrun.
  apply bind_Ok_inv in Hrun as ([] & s2 & Hasm & Hpkg).
  destruct (assemble_variant_log gfx (mkState [] t1 l))
    as (r2 & t2 & evs & E2 & Hh & _).
  rewrite E2 in Hasm. injection Hasm as -> <-. cbn [cwd log] in Hpkg.
  apply (package_variant_Ok gfx t2 (l ++ evs) s' Hgfx) in Hpkg
    as (data & text & Hlib & Henc & Hcwd & Hcmds & Hhdr & Hpre).
  exists t2, data, text. cbn zeta.
  split; [| split; [exact Hlib | split; [exact Henc | split; [exact Hcwd |]]]].
  - unfold variant_link_command. rewrite Hcmds, elem_of_app. right. constructor.
  - split; [by rewrite Hhdr, headers_written_app, Hh, app_nil_r |].
    etrans; [| exact Hpre]. by apply prefix_app_r.
Qed.


(** *** When the common step aborts *)

(** The common step raises before it creates the header exactly when the
    linker cannot be started or has left no library file (or when the
    header's name is taken by a directory); the exit status plays no
    part. *)
Lemma package_common_outcome (t : gmap (list string) node) (l : list event) :
  let cmd := LLVM_LINK +:+ " -o=" +:+ "glslEmu.lib" +:+ " "
             +:+ spaced (filter (λ f, endswith f ".bc") (entries t [])) in
  let t1 := (run shell_flag cmd t).2 in
  let l1 := l ++ [Spawned shell_flag cmd] in
  match (run shell_flag cmd t).1, t1 !! ["glslEmu.lib"],
        is_dir t1 ["g_llpcGlslEmuLib.h"] with
  | Exited _, Some (File data), false =>
      ∃ text evs,
        Hex.bin2hex_common data = Hex.Done text ∧
        log (package_common (mkState [] t l)).2
        = l1 ++ [Opened ["g_llpcGlslEmuLib.h"];
                 Written ["g_llpcGlslEmuLib.h"] text] ++ evs ∧
        quiet evs
  | _, _, _ =>
      ∃ e, package_common (mkState [] t l) = (Raise e, mkState [] t1 l1)
  end.
Proof.
  intros cmd t1 l1.
  unfold Script.package_common. rewrite bind_eq, listdir_root.
  rewrite collect_common_spaced, embed_eq. cbn zeta.
  change (resolve [] "glslEmu.lib") with ["glslEmu.lib"].
  change (resolve [] "g_llpcGlslEmuLib.h") with ["g_llpcGlslEmuLib.h"].
  fold cmd. fold t1. fold l1.
  destruct (run shell_flag cmd t).1 as [status |]; [| by eexists].
  cbn [is_dir removelast].
  destruct (t1 !! ["glslEmu.lib"]) as [[data |] |]; [| by eexists..].
  destruct (t1 !! ["g_llpcGlslEmuLib.h"]) as [[hdata |] |]; [| by eexists |].
  all: rewrite bin2hex_common_layout.
  all: match goal with |- context [log (_ (mkState ?a ?b ?c)).2] =>
         destruct (tail_log
           (split (spaced (filter (λ f, endswith f ".bc") (entries t []))))
           "glslEmu.lib" (mkState a b c)) as (evs & Hlog & Hq) end.
  all: exists (Hex.layout 0 data), evs; split; [done |]; split; [| done].
  all: rewrite Hlog; cbn [log]; by rewrite <- !app_assoc.
Qed.

End ScriptFacts.

(** ** The exit status of the external programs *)

Section ExitStatus.
Import Py Os Script Obs.

Context (LLVM_AS_DIR LLVM_LINK_DIR OS_TYPE : string).
Context (genArith genImage : generator).

Local Abbreviation shell_flag := (Obs.shell_flag OS_TYPE).

Lemma bind_ext {A B : Type} (m1 m2 : M A) (k1 k2 : A → M B) (s : state) :
  m1 s = m2 s → (∀ a s1, k1 a s1 = k2 a s1) →
  (m1 ≫= k1) s = (m2 ≫= k2) s.
Proof.
  intros Hm Hk. rewrite !bind_eq, Hm.
  destruct (m2 s) as [[a | e] s1]; [apply Hk | done].
Qed.

Lemma for_each_ext {A : Type} (l : list A) (b1 b2 : A → M unit) (s : state) :
  (∀ x s1, b1 x s1 = b2 x s1) → for_each l b1 s = for_each l b2 s.
Proof.
  intros Hb. revert s. induction l as [|x l IH]; intros s; [done |].
  cbn [for_each]. apply bind_ext; [apply Hb | intros _ s1; apply IH].
Qed.

Section TwoPrograms.

Context (run1 run2 : program).
Hypothesis Hsame : ∀ sh cmd t, same_effect (run1 sh cmd t) (run2 sh cmd t).

Lemma call_same (cmd : string) (s : state) :
  Script.call OS_TYPE run1 cmd s = Script.call OS_TYPE run2 cmd s.
Proof.
  rewrite !call_eq. cbn zeta.
  destruct (Hsame shell_flag cmd (fs s)) as [Ht Hr]. rewrite Ht.
  by destruct (run1 shell_flag cmd (fs s)).1, (run2 shell_flag cmd (fs s)).1.
Qed.

Ltac same_step :=
  repeat first
    [ reflexivity
    | apply call_same
    | apply bind_ext; [| intros ? ?]
    | apply for_each_ext; intros ? ?
    | match goal with |- context [if ?b then _ else _] => destruct b end ].

Lemma assemble_common_same (s : state) :
  Script.assemble_common LLVM_AS_DIR OS_TYPE run1 s
  = Script.assemble_common LLVM_AS_DIR OS_TYPE run2 s.
Proof. unfold Script.assemble_common. same_step. Qed.

Lemma package_special_same (feature : string) (s : state) :
  Script.package_special LLVM_LINK_DIR OS_TYPE run1 feature s
  = Script.package_special LLVM_LINK_DIR OS_TYPE run2 feature s.
Proof. unfold Script.package_special. same_step. Qed.

Lemma package_common_same (s : state) :
  Script.package_common LLVM_LINK_DIR OS_TYPE run1 s
  = Script.package_common LLVM_LINK_DIR OS_TYPE run2 s.
Proof. unfold Script.package_common. same_step. Qed.

Lemma variant_same (gfx : string) (s : state) :
  Script.variant LLVM_AS_DIR LLVM_LINK_DIR OS_TYPE run1 genImage gfx s
  = Script.variant LLVM_AS_DIR LLVM_LINK_DIR OS_TYPE run2 genImage gfx s.
Proof.
  unfold Script.variant, Script.assemble_variant, Script.package_variant.
  same_step.
Qed.

(** Two tool chains that do the same to the files and differ only in
    their exit statuses give the same run. *)
Lemma main_same (s : state) :
  Script.main LLVM_AS_DIR LLVM_LINK_DIR OS_TYPE run1 genArith genImage s
  = Script.main LLVM_AS_DIR LLVM_LINK_DIR OS_TYPE run2 genArith genImage s.
Proof.
  unfold Script.main.
  apply bind_ext; [done | intros _ s1].
  apply bind_ext; [done | intros _ s2].
  apply bind_ext; [apply assemble_common_same | intros _ s3].
  apply bind_ext; [apply for_each_ext, package_special_same | intros _ s4].
  apply bind_ext; [apply package_common_same | intros _ s5].
  apply for_each_ext, variant_same.
Qed.

End TwoPrograms.

(** C3, as amended (exit status). The script never looks at the exit
    status of the assembler or the linker: two tool chains that do the
    same to the files and differ only in their exit statuses give the
    same run. The common packaging step aborts before creating its
    header only when the linker cannot be started, or no library file is
    there after the linker has run, or a directory has the header's
    name; otherwise the header is created and written, whatever the
    status. *)
Theorem exit_status_ignored (run1 run2 : program)
    (t : gmap (list string) node) (l : list event) :
  (∀ sh cmd tr, same_effect (run1 sh cmd tr) (run2 sh cmd tr)) →
  Script.main LLVM_AS_DIR LLVM_LINK_DIR OS_TYPE run1 genArith genImage
    (mkState [] t l)
  = Script.main LLVM_AS_DIR LLVM_LINK_DIR OS_TYPE run2 genArith genImage
      (mkState [] t l) ∧
  let cmd := Script.LLVM_LINK LLVM_LINK_DIR +:+ " -o=" +:+ "glslEmu.lib" +:+ " "
             +:+ spaced (filter (λ f, endswith f ".bc") (entries t [])) in
  let t1 := (run1 shell_flag cmd t).2 in
  let l1 := l ++ [Spawned shell_flag cmd] in
  match (run1 shell_flag cmd t).1, t1 !! ["glslEmu.lib"],
        is_dir t1 ["g_llpcGlslEmuLib.h"] with
  | Exited _, Some (File data), false =>
      ∃ text evs,
        Hex.bin2hex_common data = Hex.Done text ∧
        log (Script.package_common LLVM_LINK_DIR OS_TYPE run1
               (mkState [] t l)).2
        = l1 ++ [Opened ["g_llpcGlslEmuLib.h"];
                 Written ["g_llpcGlslEmuLib.h"] text] ++ evs ∧
        quiet evs
  | _, _, _ =>
      ∃ e, Script.package_common LLVM_LINK_DIR OS_TYPE run1 (mkState [] t l)
           = (Raise e, mkState [] t1 l1)
  end.
Proof.
  intros Hsame. split; [by apply main_same |].
  apply package_common_outcome.
Qed.

End ExitStatus.

(** C3, as stated, fails: with a tool chain whose every program exits
    with status 1 the run goes on to the end and writes all five
    headers. *)
Lemma nonzero_exit_not_fatal :
  (Script.main "" "" "linux" (Toy.tools_exiting 1) Toy.gen Toy.gen
     (Toy.start Toy.root0)).1 = Os.Ok tt ∧
  map fst
    (Obs.headers_written
       (Os.log (Script.main "" "" "linux" (Toy.tools_exiting 1) Toy.gen Toy.gen
                  (Toy.start Toy.root0)).2))
  = [ ["g_llpcGlslNullFsEmuLib.h"]; ["g_llpcGlslCopyShaderEmuLib.h"];
      ["g_llpcGlslEmuLib.h"];
      ["gfx6"; "g_llpcGlslEmuLibGfx6.h"];
      ["gfx9"; "g_llpcGlslEmuLibGfx9.h"] ].
Proof. split; vm_compute; reflexivity. Qed.

Lemma exit_status_ignored_witness :
  Script.main "" "" "linux" (Toy.tools_exiting 0) Toy.gen Toy.gen
    (Os.mkState [] Toy.root0 [])
  = Script.main "" "" "linux" (Toy.tools_exiting 1) Toy.gen Toy.gen
      (Os.mkState [] Toy.root0 []).
Proof.
  refine (proj1 (exit_status_ignored "" "" "linux" Toy.gen Toy.gen
                   (Toy.tools_exiting 0) (Toy.tools_exiting 1) Toy.root0 [] _)).
  intros sh cmd tr. split; reflexivity.
Defined.

(** ** The clean-up pass *)

Section Cleanup.
Import Py Os Script Obs.

Lemma delete_all_lookup (ps : list (list string)) (t : gmap (list string) node)
    (p : list string) :
  fold_left (λ t q, delete q t) ps t !! p
  = if bool_decide (p ∈ ps) then None else t !! p.
Proof.
  revert t. induction ps as [|q ps IH]; intros t; simpl; [done |].
  rewrite IH. destruct (decide (p = q)) as [-> | Hne].
  - rewrite lookup_delete_eq, (bool_decide_eq_true_2 (q ∈ q :: ps)) by left.
    by case_bool_decide.
  - rewrite lookup_delete_ne by done.
    rewrite (bool_decide_ext (p ∈ q :: ps) (p ∈ ps)); [done |].
    rewrite elem_of_cons. split; [intros [? | ?]; [contradiction | done] | auto].
Qed.

Lemma is_dir_snoc (t : gmap (list string) node) (d : list string) (n : string) :
  is_dir t (d ++ [n])
  = match t !! (d ++ [n]) with Some Dir => true | _ => false end.
Proof. by destruct d. Qed.

(** Removing the names of [ns] that pass [P], one by one, in the
    directory [d]: it goes through when each of them is a file. *)
Lemma remove_where (P : string → bool) (ns : list string) (d : list string)
    (t : gmap (list string) node) (l : list event) :
  NoDup ns →
  (∀ n, n ∈ ns → valid_name n = true) →
  (∀ n, n ∈ ns → P n = true → ∃ data, t !! (d ++ [n]) = Some (File data)) →
  ∃ l',
    for_each ns (λ f, if P f then remove f else mret tt) (mkState d t l)
    = (Ok tt,
       mkState d
         (fold_left (λ t q, delete q t) (under d (filter (λ n, P n) ns)) t) l').
Proof.
  intros Hnd. revert t l.
  induction Hnd as [|n ns Hn Hnd IH]; intros t l Hvalid Hfile; simpl.
  - by exists l.
  - rewrite bind_eq, filter_cons.
    assert (Hrest : ∀ t' : gmap (list string) node,
              (∀ p, p ≠ d ++ [n] → t' !! p = t !! p) →
              ∀ m, m ∈ ns → P m = true →
              ∃ data, t' !! (d ++ [m]) = Some (File data)).
    { intros t' Ht' m Hm HP. rewrite Ht'; [apply Hfile; [by right | done] |].
      intros [= ->]%(inj (app d)). done. }
    destruct (P n) eqn:HP; simpl.
    + destruct (Hfile n) as [data Hdata]; [by left | done |].
      unfold remove at 1. cbn [cwd fs log].
      rewrite (resolve_name d n) by (apply Hvalid; by left).
      assert (Hnd' : is_dir t (d ++ [n]) = false)
        by (by rewrite is_dir_snoc, Hdata).
      rewrite Hnd', Hdata.
      apply IH; [intros; apply Hvalid; by right |].
      apply Hrest. intros p Hp. by rewrite lookup_delete_ne.
    + apply IH; [intros; apply Hvalid; by right |]. by apply Hrest.
Qed.

Lemma elem_of_under (d : list string) (ns : list string) (p : list string) :
  p ∈ under d ns ↔ ∃ n, p = d ++ [n] ∧ n ∈ ns.
Proof. unfold under. by rewrite list_elem_of_fmap. Qed.

(** A loop whose body keeps an invariant over what is left to do. *)
Lemma for_each_inv {A : Type} (I : list A → state → Prop)
    (body : A → M unit) (l : list A) (s : state) :
  (∀ x rest s0, I (x :: rest) s0 →
     ∃ s1, body x s0 = (Ok tt, s1) ∧ I rest s1) →
  I l s →
  ∃ s', for_each l body s = (Ok tt, s') ∧ I [] s'.
Proof.
  intros Hbody. revert s. induction l as [|x l IH]; intros s HI.
  - by exists s.
  - destruct (Hbody x l s HI) as (s1 & H1 & HI1).
    destruct (IH s1 HI1) as (s' & H' & HI').
    exists s'. split; [| done]. cbn [for_each]. by rewrite bind_eq, H1.
Qed.

Section Sweep.

Context (t : gmap (list string) node).
Hypothesis Hwf : wf_names t.

(** What the loop has not visited yet is as in [t]. *)
Lemma sweeping_ahead (f : string) (rest r : list string) (s : state) :
  sweeping t (f :: rest) s → fs s !! (f :: r) = t !! (f :: r).
Proof.
  intros (_ & _ & _ & H). rewrite H. cbn [head_in].
  rewrite (bool_decide_eq_true_2 (f ∈ f :: rest)) by left.
  by rewrite andb_false_r.
Qed.

Lemma doomed_file (p : list string) :
  (doomed t p = true → t !! p ≠ Some Dir) →
  doomed t p = true → is_Some (t !! p) → ∃ data, t !! p = Some (File data).
Proof.
  intros Hfile Hd [[data |] Hv]; [eauto |]. by apply Hfile in Hd.
Qed.

Lemma sweeping_next (f : string) (rest : list string) (s : state)
    (tc : gmap (list string) node) (lc : list event) :
  sweeping t (f :: rest) s →
  (∀ p, tc !! p = if doomed t p && bool_decide (hd_error p = Some f)
                  then None else fs s !! p) →
  sweeping t rest (mkState [] tc lc).
Proof.
  intros (Hcwd & Hnd & Hsub & Hlook) Htc.
  apply NoDup_cons in Hnd as [Hf Hnd].
  assert (HfN : f ∈ entries t []) by (apply Hsub; by left).
  split; [done |]. split; [done |].
  split; [intros g Hg; apply Hsub; by right |].
  intros p. rewrite Htc, Hlook.
  destruct p as [|g r]; [done |]. cbn [hd_error head_in].
  destruct (decide (g = f)) as [-> | Hne].
  - rewrite (bool_decide_eq_true_2 (Some f = Some f)) by done.
    rewrite (bool_decide_eq_true_2 (f ∈ f :: rest)) by left.
    rewrite (bool_decide_eq_true_2 (f ∈ entries t [])) by done.
    rewrite (bool_decide_eq_false_2 (f ∈ rest)) by done.
    rewrite !andb_true_r, andb_false_r.
    destruct (doomed t (f :: r)); done.
  - rewrite (bool_decide_eq_false_2 (Some g = Some f)) by congruence.
    rewrite andb_false_r.
    rewrite (bool_decide_ext (g ∈ f :: rest) (g ∈ rest)); [done |].
    rewrite elem_of_cons. split; [intros [? | ?]; [contradiction | done] | auto].
Qed.

(** One turn of the loop of lines 55-68, on a name under which the
    entries to remove are files. *)
Lemma cleanup_step (f : string) (rest : list string) (s : state) :
  (∀ r, doomed t (f :: r) = true → t !! (f :: r) ≠ Some Dir) →
  sweeping t (f :: rest) s →
  ∃ s1,
    (if is_generated f then remove f
     else
       d ← isdir f;
       if d && startswith f "gfx" then
         chdir ("./" +:+ f);;
         names' ← listdir "./";
         cleanup_inner names';;
         chdir "./.."
       else mret tt) s = (Ok tt, s1) ∧
    sweeping t rest s1.
Proof.
  intros Hfiles Hs.
  pose proof Hs as (Hcwd & Hnd & Hsub & Hlook).
  assert (HfN : f ∈ entries t []) by (apply Hsub; by left).
  pose proof (listed_valid t [] f Hwf HfN) as Hvalid.
  pose proof (sweeping_ahead f rest [] s Hs) as Hf.
  destruct s as [d tc lc]. cbn [cwd fs log] in *. subst d.
  assert (Hahead : ∀ r, tc !! (f :: r) = t !! (f :: r))
    by (intros r; apply (sweeping_ahead f rest r _ Hs)).
  destruct (is_generated f) eqn:Hgen.
  - (* a generated name in the working root *)
    destruct (doomed_file [f]) as [data Hdata];
      [apply Hfiles | done | by apply elem_of_entries in HfN |].
    rewrite <- Hf in Hdata.
    eexists. split.
    + unfold remove. cbn [cwd fs log]. rewrite (resolve_name [] f Hvalid).
      cbn [app is_dir]. rewrite Hdata. reflexivity.
    + eapply sweeping_next; [exact Hs |]. intros p. cbn [fs].
      destruct (decide (p = [f])) as [-> | Hne].
      * rewrite lookup_delete_eq. cbn [doomed hd_error].
        by rewrite Hgen, bool_decide_eq_true_2.
      * rewrite lookup_delete_ne by done.
        destruct p as [|g [|n [|? ?]]]; cbn [doomed hd_error]; try done.
        -- case_bool_decide; [| by rewrite andb_false_r]. congruence.
        -- case_bool_decide as E; [| by rewrite andb_false_r].
           injection E as ->. by rewrite Hgen.
  - rewrite bind_eq. unfold isdir at 1. cbn [cwd fs log].
    rewrite (resolve_name [] f Hvalid). cbn [app].
    assert (Hdir : is_dir tc [f] = is_dir t [f])
      by (cbn [is_dir]; by rewrite Hf).
    destruct (is_dir tc [f] && startswith f "gfx") eqn:Hgfx.
    + (* a variant directory *)
      apply andb_true_iff in Hgfx as [Hd Hpre].
      rewrite bind_eq. unfold chdir at 1. cbn [cwd fs log].
      rewrite (resolve_dot_slash_name [] f Hvalid). cbn [app]. rewrite Hd.
      rewrite bind_eq. unfold listdir at 1. cbn [cwd fs log].
      rewrite resolve_dot_slash, Hd.
      assert (Hin : ∀ n, n ∈ entries tc [f] ↔ is_Some (t !! [f; n])).
      { intros n. rewrite elem_of_entries. cbn [app]. by rewrite Hahead. }
      destruct (remove_where is_generated (entries tc [f]) [f] tc lc)
        as [l' Hinner].
      { apply NoDup_entries. }
      { intros n Hn%Hin. apply Hwf in Hn.
        by apply Forall_cons in Hn as [_ [Hn _]%Forall_cons]. }
      { intros n Hn%Hin Hg. cbn [app]. rewrite Hahead.
        apply doomed_file; [apply Hfiles | | done]. cbn [doomed].
        by rewrite Hgen, <- Hdir, Hd, Hpre, Hg. }
      rewrite bind_eq. unfold cleanup_inner. rewrite Hinner.
      unfold chdir. cbn [cwd fs log].
      change (resolve [f] "./..") with (resolve ([] ++ [f]) "./..").
      rewrite (resolve_up [] f). cbn [is_dir].
      eexists. split; [reflexivity |].
      eapply sweeping_next; [exact Hs |]. intros p. cbn [fs].
      rewrite delete_all_lookup.
      case_bool_decide as Hp.
      * apply elem_of_under in Hp as (n & -> & Hn).
        apply list_elem_of_filter in Hn as [Hg%Is_true_true Hn].
        cbn [app doomed hd_error].
        rewrite Hgen, <- Hdir, Hd, Hpre, Hg.
        by rewrite bool_decide_eq_true_2.
      * destruct p as [|g [|n [|? ?]]]; cbn [doomed hd_error]; try done.
        -- case_bool_decide as E; [| by rewrite andb_false_r].
           injection E as ->. by rewrite Hgen.
        -- case_bool_decide as E; [| by rewrite andb_false_r].
           injection E as ->.
           destruct (is_generated n) eqn:Hg; [| by rewrite !andb_false_r].
           rewrite Hgen, <- Hdir, Hd, Hpre. cbn.
           destruct (tc !! [f; n]) eqn:E; [| done].
           exfalso. apply Hp, elem_of_under. exists n. split; [done |].
           apply list_elem_of_filter. split; [by apply Is_true_true |].
           apply elem_of_entries. cbn [app]. by rewrite E.
    + (* anything else *)
      eexists. split; [reflexivity |].
      eapply sweeping_next; [exact Hs |]. intros p. cbn [fs].
      destruct p as [|g [|n [|? ?]]]; cbn [doomed hd_error]; try done.
      * case_bool_decide as E; [| by rewrite andb_false_r].
        injection E as ->. by rewrite Hgen.
      * case_bool_decide as E; [| by rewrite andb_false_r].
        injection E as ->. rewrite <- Hdir.
        rewrite <- (andb_assoc (negb _)), Hgfx. by rewrite andb_false_r.
Qed.

End Sweep.

Lemma head_in_nil (p : list string) : head_in p [] = false.
Proof.
  destruct p as [|f r]; [done |]. cbn [head_in].
  apply bool_decide_eq_false_2, not_elem_of_nil.
Qed.

Lemma swept_lookup (t : gmap (list string) node) (p : list string) :
  swept t !! p = if doomed t p then None else t !! p.
Proof.
  unfold swept. destruct (doomed t p) eqn:Hd.
  - apply map_lookup_filter_None. right. intros v _. cbn. congruence.
  - destruct (t !! p) as [v |] eqn:E.
    + by apply map_lookup_filter_Some.
    + apply map_lookup_filter_None. by left.
Qed.

Lemma doomed_head_listed (t : gmap (list string) node) (p : list string) :
  doomed t p = true → is_Some (t !! p) → head_in p (entries t []) = true.
Proof.
  destruct p as [|g [|n [|? ?]]]; cbn [doomed head_in]; try done.
  - intros _ H. apply bool_decide_eq_true_2. by apply elem_of_entries.
  - intros [[[_ Hd]%andb_true_iff _]%andb_true_iff _]%andb_true_iff _.
    apply bool_decide_eq_true_2, elem_of_entries. cbn [app is_dir] in *.
    destruct (t !! [g]); [eauto | done].
Qed.

(** The pass returns, on a tree whose entries to remove are all files,
    and leaves the swept tree. *)
Lemma cleanup_returns (t : gmap (list string) node) (l : list event) :
  wf_names t →
  (∀ p, doomed t p = true → t !! p ≠ Some Dir) →
  ∃ l', cleanup (mkState [] t l) = (Ok tt, mkState [] (swept t) l').
Proof.
  intros Hwf Hfiles.
  unfold cleanup. rewrite bind_eq, listdir_root.
  destruct (for_each_inv (sweeping t)
              (λ f, if is_generated f then remove f
                    else d ← isdir f;
                         if d && startswith f "gfx" then
                           chdir ("./" +:+ f);;
                           names' ← listdir "./";
                           cleanup_inner names';;
                           chdir "./.."
                         else mret tt)
              (entries t []) (mkState [] t l))
    as ([d tc l'] & Hrun & Hcwd & _ & _ & Hlook).
  + intros f rest s0. apply cleanup_step; [done |]. intros r. apply Hfiles.
  + split; [done |]. split; [apply NoDup_entries |]. split; [done |].
    intros p. cbn [fs]. by rewrite <- andb_assoc, andb_negb_r, andb_false_r.
  + cbn [cwd fs] in *. subst d. exists l'. rewrite Hrun.
    do 2 f_equal. apply map_eq. intros p.
    rewrite Hlook, swept_lookup, head_in_nil. cbn [negb].
    rewrite andb_true_r.
    destruct (doomed t p) eqn:Hd; [| done].
    destruct (t !! p) eqn:E; [| by destruct (head_in _ _)].
    by rewrite doomed_head_listed.
Qed.


End Cleanup.

(** ** Clean-up completeness *)

Section Names.
Import Py Os Script Obs.

Lemma endswith_step (c : ascii) (s suf : string) :
  endswith (String c s) suf = String.eqb (String c s) suf || endswith s suf.
Proof. reflexivity. Qed.

(** A name that ends in ".bc" ends neither in ".lib" nor in ".ll". *)
Lemma endswith_bc_only (s : string) :
  endswith s ".bc" = true →
  endswith s ".lib" = false ∧ endswith s ".ll" = false.
Proof.
  induction s as [|c s IH]; [done |].
  rewrite !endswith_step.
  intros [E%String.eqb_eq | H]%orb_true_iff.
  - injection E as -> ->. by vm_compute.
  - destruct (IH H) as [-> ->]. rewrite !orb_false_r.
    split; apply String.eqb_neq; intros [= -> ->]; by vm_compute in H.
Qed.

Lemma bc_of_step (c : ascii) (s : string) :
  bc_of (String c s)
  = if String.eqb (String c s) ".ll" then ".bc" else String c (bc_of s).
Proof. reflexivity. Qed.

Lemma bc_of_ends (src : string) : endswith (bc_of src) ".bc" = true.
Proof.
  induction src as [|c s IH]; [done |].
  rewrite bc_of_step. destruct (String.eqb (String c s) ".ll"); [done |].
  rewrite endswith_step, IH. apply orb_true_r.
Qed.

Lemma forallb_bc_of (P : ascii → bool) (src : string) :
  P "."%char = true → P "b"%char = true → P "c"%char = true →
  forallb P (list_ascii_of_string src) = true →
  forallb P (list_ascii_of_string (bc_of src)) = true.
Proof.
  intros Hd Hb Hc. induction src as [|c s IH]; intros H.
  - cbn. by rewrite Hd, Hb, Hc.
  - rewrite bc_of_step. destruct (String.eqb (String c s) ".ll").
    + cbn. by rewrite Hd, Hb, Hc.
    + cbn in *. apply andb_true_iff in H as [-> H]. by apply IH.
Qed.

Lemma not_artifact_short (s : string) :
  endswith s ".bc" = true → s ≠ "" ∧ s ≠ "." ∧ s ≠ "..".
Proof. intros H. repeat split; intros ->; by vm_compute in H. Qed.

Lemma bc_of_plain (f : string) : plain f = true → plain (bc_of f) = true.
Proof.
  unfold plain. intros [_ H]%andb_true_iff. apply andb_true_iff. split.
  - apply negb_true_iff, String.eqb_neq.
    by apply not_artifact_short, bc_of_ends.
  - by apply forallb_bc_of.
Qed.

Lemma bc_of_valid (f : string) : valid_name f = true → valid_name (bc_of f) = true.
Proof.
  unfold valid_name. intros [_ H]%andb_true_iff.
  destruct (not_artifact_short (bc_of f) (bc_of_ends f)) as (H1 & H2 & H3).
  apply String.eqb_neq in H1, H2, H3. rewrite H1, H2, H3. cbn.
  by apply forallb_bc_of.
Qed.

(** The object of a good source is a good name. *)
Lemma good_bc_of (f : string) :
  valid_name f = true → plain f = true → good_name (bc_of f) = true.
Proof.
  intros Hv Hp. unfold good_name.
  rewrite (bc_of_valid f Hv), (bc_of_plain f Hp).
  destruct (endswith_bc_only _ (bc_of_ends f)) as [-> _].
  by rewrite orb_true_r.
Qed.

Lemma no_slash_app_slash (g f : string) :
  no_slash (g +:+ String "/" f) = false.
Proof.
  unfold no_slash. induction g as [|c g IH]; [done |].
  rewrite sapp_cons. cbn. rewrite IH. apply andb_false_r.
Qed.

(** The assembler's object for [g/f] is [g/(object of f)]. *)
Lemma bc_of_in_dir (g f : string) :
  bc_of (g +:+ "/" +:+ f) = g +:+ "/" +:+ bc_of f.
Proof.
  change ("/" +:+ f) with (String "/" f).
  change ("/" +:+ bc_of f) with (String "/" (bc_of f)).
  induction g as [|c g IH].
  - rewrite !sapp_nil_l, bc_of_step.
    destruct (String.eqb_spec (String "/" f) ".ll") as [E | _]; [done | done].
  - rewrite !sapp_cons, bc_of_step, IH.
    destruct (String.eqb_spec (String c (g +:+ String "/" f)) ".ll")
      as [E | _]; [| done].
    pose proof (no_slash_app_slash (String c g) f) as H.
    rewrite sapp_cons, E in H. by vm_compute in H.
Qed.

(** A good name that is an object or a library is a one-word ".bc"
    name. *)
Lemma good_artifact (f : string) :
  good_name f = true → artifact f = true →
  endswith f ".bc" = true ∧ plain f = true ∧ valid_name f = true.
Proof.
  unfold good_name, artifact.
  intros [[Hv Hl%negb_true_iff]%andb_true_iff Hp]%andb_true_iff.
  rewrite Hl, orb_false_r. intros Hbc. rewrite Hbc, orb_true_r in Hp.
  by cbn in Hp.
Qed.

Lemma good_source (f : string) :
  good_name f = true → endswith f ".ll" = true →
  plain f = true ∧ valid_name f = true.
Proof.
  unfold good_name.
  intros [[Hv _]%andb_true_iff Hp]%andb_true_iff Hll.
  rewrite Hll in Hp. by cbn in Hp.
Qed.

Lemma good_valid (f : string) : good_name f = true → valid_name f = true.
Proof.
  unfold good_name. by intros [[Hv _]%andb_true_iff _]%andb_true_iff.
Qed.

(** *** Splitting the list of objects back into names *)

Lemma split_go_word (w rest cur : string) :
  forallb (λ c, negb (is_space c)) (list_ascii_of_string w) = true →
  split_go cur (w +:+ String " " rest)
  = match cur +:+ w with
    | EmptyString => split_go "" rest
    | _ => (cur +:+ w) :: split_go "" rest
    end.
Proof.
  revert cur. induction w as [|c w IH]; intros cur H.
  - rewrite sapp_nil_l, sapp_nil_r. reflexivity.
  - cbn in H. apply andb_true_iff in H as [Hc%negb_true_iff H].
    rewrite sapp_cons. cbn [split_go]. rewrite Hc, (IH _ H).
    by rewrite sapp_assoc.
Qed.

(** [s.split()] gives back the names that were joined with spaces, when
    each is one word. *)
Lemma split_spaced (l : list string) :
  Forall (λ f, plain f = true) l → split (spaced l) = l.
Proof.
  unfold split. induction 1 as [|f l Hf Hl IH]; [done |].
  cbn [spaced foldr]. fold (spaced l).
  apply andb_true_iff in Hf as [Hne%negb_true_iff%String.eqb_neq Hf].
  change (" " +:+ spaced l) with (String " " (spaced l)).
  rewrite (split_go_word f (spaced l) "" Hf), sapp_nil_l, IH.
  by destruct f.
Qed.

Lemma plain_in_dir (g f : string) :
  plain g = true → plain f = true → plain (g +:+ "/" +:+ f) = true.
Proof.
  unfold plain.
  intros [Hg1%negb_true_iff%String.eqb_neq Hg]%andb_true_iff [_ Hf]%andb_true_iff.
  apply andb_true_iff. split.
  - apply negb_true_iff, String.eqb_neq. by destruct g.
  - clear Hg1. induction g as [|c g IH]; [by cbn |].
    rewrite sapp_cons. cbn in *. apply andb_true_iff in Hg as [-> Hg]. by apply IH.
Qed.

End Names.

Section Evolves.
Import Py Os Script Obs.

Lemma evolves_refl (d : list string) (t : gmap (list string) node) :
  evolves d t t.
Proof. intros p. by left. Qed.

Lemma evolves_trans (d : list string) (t1 t2 t3 : gmap (list string) node) :
  evolves d t1 t2 → evolves d t2 t3 → evolves d t1 t3.
Proof.
  intros H12 H23 p.
  destruct (H23 p) as [E | [E | E]]; [| by right; left | by right; right].
  rewrite E. apply H12.
Qed.

(** A program that touches one good entry of [d] and nothing else. *)
Lemma evolves_frame (d : list string) (f : string)
    (t t' : gmap (list string) node) :
  good_name f = true →
  (∀ p, p ≠ d ++ [f] → t' !! p = t !! p) →
  evolves d t t'.
Proof.
  intros Hg Hframe p. destruct (decide (p = d ++ [f])) as [-> | Hne].
  - right; right. eauto.
  - left. by apply Hframe.
Qed.

Lemma in_work_dirs (d : list string) :
  d ∈ work_dirs → d = [] ∨ d = ["gfx6"] ∨ d = ["gfx9"].
Proof.
  unfold work_dirs. rewrite !elem_of_cons, elem_of_nil. tauto.
Qed.

Lemma tidy_evolves (d : list string) (t t' : gmap (list string) node) :
  tidy t → evolves d t t' → tidy t'.
Proof.
  intros Ht Hev d' f Hd' Hf.
  destruct (Hev (d' ++ [f])) as [E | [E | (f' & E & Hg)]].
  - rewrite E in Hf. by apply (Ht d').
  - rewrite E in Hf. by destruct Hf.
  - apply app_inj_tail in E as [_ ->]. done.
Qed.

Lemma clean_evolves (d d' : list string) (t t' : gmap (list string) node) :
  clean_in t d → evolves d' t t' → d ≠ d' → clean_in t' d.
Proof.
  intros Hc Hev Hne f Hf.
  destruct (Hev (d ++ [f])) as [E | [E | (f' & E & Hg)]].
  - rewrite E in Hf. by apply Hc.
  - rewrite E in Hf. by destruct Hf.
  - by apply app_inj_tail in E as [? _].
Qed.

End Evolves.

Section Stages.
Import Py Os Script Obs.

Context (LLVM_AS_DIR LLVM_LINK_DIR OS_TYPE : string).
Context (run : program) (genArith genImage : generator).

Hypothesis Harith : generator_contract genArith.
Hypothesis Himage : generator_contract genImage.
Hypothesis Has : assembler_contract LLVM_AS_DIR run.
Hypothesis Hlink : linker_contract LLVM_LINK_DIR run.

Local Abbreviation LLVM_AS := (Script.LLVM_AS LLVM_AS_DIR).
Local Abbreviation LLVM_LINK := (Script.LLVM_LINK LLVM_LINK_DIR).
Local Abbreviation shell_flag := (Obs.shell_flag OS_TYPE).
Local Abbreviation call := (Script.call OS_TYPE run).
Local Abbreviation package_special := (Script.package_special LLVM_LINK_DIR OS_TYPE run).
Local Abbreviation package_common := (Script.package_common LLVM_LINK_DIR OS_TYPE run).
Local Abbreviation package_variant := (Script.package_variant LLVM_LINK_DIR OS_TYPE run).
Local Abbreviation assemble_common := (Script.assemble_common LLVM_AS_DIR OS_TYPE run).
Local Abbreviation assemble_variant := (Script.assemble_variant LLVM_AS_DIR OS_TYPE run).
Local Abbreviation generate_common := (Script.generate_common genArith).
Local Abbreviation generate_variant := (Script.generate_variant genImage).
Local Abbreviation variant :=
  (Script.variant LLVM_AS_DIR LLVM_LINK_DIR OS_TYPE run genImage).
Local Abbreviation main :=
  (Script.main LLVM_AS_DIR LLVM_LINK_DIR OS_TYPE run genArith genImage).

(** A loop of calls, each touching one good entry of [d]. *)
Lemma call_loop_evolves (d : list string) (P : string → bool)
    (c : string → string) (names : list string) (s : state)
    (r : outcome unit) (s' : state) :
  (∀ f, f ∈ names → P f = true →
     ∃ n, good_name n = true ∧
          ∀ sh u p, p ≠ d ++ [n] → (run sh (c f) u).2 !! p = u !! p) →
  for_each names (λ f, if P f then call (c f) else mret tt) s = (r, s') →
  cwd s' = cwd s ∧ evolves d (fs s) (fs s').
Proof.
  revert s. induction names as [|f names IH]; intros s Hc Hrun.
  - cbn in Hrun. injection Hrun as _ <-. split; [done | apply evolves_refl].
  - cbn [for_each] in Hrun. rewrite bind_eq in Hrun.
    assert (Hc' : ∀ g, g ∈ names → P g = true →
              ∃ n, good_name n = true ∧
                   ∀ sh u p, p ≠ d ++ [n] → (run sh (c g) u).2 !! p = u !! p)
      by (intros g Hg; apply Hc; by right).
    destruct (P f) eqn:HP.
    + destruct (Hc f) as (n & Hn & Hframe); [by left | done |].
      rewrite call_eq in Hrun. cbn zeta in Hrun.
      assert (Hev : evolves d (fs s) (run shell_flag (c f) (fs s)).2)
        by (apply (evolves_frame d n); [done | intros p Hp; by apply Hframe]).
      destruct (run shell_flag (c f) (fs s)).1.
      * apply IH in Hrun as [-> Hev']; [| done]. cbn [cwd fs] in *.
        split; [done |]. by eapply evolves_trans.
      * injection Hrun as _ <-. by cbn.
    + by apply IH in Hrun.
Qed.

Lemma generator_evolves (g : generator) (input output mode : string)
    (d : list string) (n : string)
    (t : gmap (list string) node) (l : list event) (r : outcome unit)
    (s' : state) :
  generator_contract g →
  resolve [] output = d ++ [n] → good_name n = true →
  call_generator g input output mode (mkState [] t l) = (r, s') →
  cwd s' = [] ∧ log s' = l ∧ evolves d t (fs s').
Proof.
  intros Hg Hout Hn. unfold call_generator. cbn [cwd fs log].
  pose proof (Hg input output mode t) as Hframe.
  destruct (g input output mode t) as [r' t']. intros [= _ <-].
  repeat split. apply (evolves_frame d n); [done |].
  intros p Hp. apply Hframe. by rewrite Hout.
Qed.

Lemma fold_left_delete_map (qual : string → string) (bcs : list string)
    (t : gmap (list string) node) :
  fold_left (λ t f, delete (resolve [] f) t) (map qual bcs) t
  = fold_left (λ t q, delete q t) (map (λ f, resolve [] (qual f)) bcs) t.
Proof. revert t. induction bcs as [|f bcs IH]; intros t; [done | apply IH]. Qed.

(** Link, embed and remove, in the directory [d]: the step leaves [d]
    without objects and libraries, and touches nothing else but the
    header. [qual f] is how the step writes the name [f] of [d]. *)
Lemma package_dir_clean (enc : list Byte.byte → Hex.loop_result)
    (d : list string) (qual : string → string)
    (libFile libName hFile hName : string) (names : list string)
    (u : gmap (list string) node) (l : list event) (s' : state) :
  (∀ f, is_Some (u !! (d ++ [f])) → good_name f = true) →
  (∀ f, f ∈ names ↔ is_Some (u !! (d ++ [f]))) →
  (∀ f, valid_name f = true → resolve [] (qual f) = d ++ [f]) →
  (∀ f, plain f = true → plain (qual f) = true) →
  resolve [] libFile = d ++ [libName] → plain libFile = true →
  resolve [] hFile = d ++ [hName] →
  good_name hName = true → artifact hName = false →
  (call (LLVM_LINK +:+ " -o=" +:+ libFile +:+ " "
         +:+ spaced (map qual (filter (λ f, endswith f ".bc") names)));;
   binData ← read_binary libFile;
   fHex ← open_w hFile;
   hexText ← hex_text (enc binData);
   write_close fHex hexText;;
   for_each
     (split (spaced (map qual (filter (λ f, endswith f ".bc") names))))
     (λ f, remove f);;
   remove libFile) (mkState [] u l) = (Ok tt, s') →
  cwd s' = [] ∧ evolves d u (fs s') ∧ clean_in (fs s') d.
Proof.
  intros Htidy Hnames Hqual Hqplain Hlib Hlibplain Hh Hhgood Hhart Hrun.
  set (bcs := filter (λ f, endswith f ".bc") names) in *.
  assert (Hbcs : ∀ f, f ∈ bcs → plain f = true ∧ valid_name f = true).
  { intros f [Hbc%Is_true_true Hf]%list_elem_of_filter.
    apply Hnames, Htidy in Hf.
    apply good_artifact in Hf as (_ & ? & ?); [done |].
    unfold artifact. by rewrite Hbc. }
  assert (Hsplit : split (spaced (map qual bcs)) = map qual bcs).
  { apply split_spaced, Forall_forall.
    intros q (f & -> & Hf)%list_elem_of_fmap. by apply Hqplain, Hbcs. }
  rewrite Hsplit in Hrun.
  apply embed_Ok in Hrun as (data & text & Hdata & Henc & Hrest).
  apply bind_Ok_inv in Hrest as ([] & s1 & H1 & H2).
  apply for_each_remove_Ok in H1. subst s1.
  apply remove_Ok in H2 as [_ ->]. cbn [cwd fs].
  rewrite fold_left_delete_map, Hlib, Hh.
  set (cmd := LLVM_LINK +:+ _) in *.
  set (t1 := (run shell_flag cmd u).2) in *.
  assert (Hpaths : map (λ f, resolve [] (qual f)) bcs = under d bcs).
  { unfold under. apply map_ext_in. intros f Hf%list_elem_of_In.
    by apply Hqual, Hbcs. }
  rewrite Hpaths.
  assert (Hframe : ∀ p, p ≠ d ++ [libName] → t1 !! p = u !! p).
  { intros p Hp. apply Hlink; [done | by rewrite Hlib]. }
  assert (Hfinal : ∀ p,
    delete (d ++ [libName])
      (fold_left (λ t q, delete q t) (under d bcs)
         (<[d ++ [hName] := File (list_byte_of_string text)]>
            (<[d ++ [hName] := File []]> t1))) !! p
    = if decide (p = d ++ [libName]) then None
      else if bool_decide (p ∈ under d bcs) then None
      else if decide (p = d ++ [hName])
           then Some (File (list_byte_of_string text))
           else u !! p).
  { intros p. destruct (decide (p = d ++ [libName])) as [-> | Hne1].
    - apply lookup_delete_eq.
    - rewrite lookup_delete_ne by done. rewrite delete_all_lookup.
      case_bool_decide; [done |].
      destruct (decide (p = d ++ [hName])) as [-> | Hne2].
      + apply lookup_insert_eq.
      + rewrite !lookup_insert_ne by done. by apply Hframe. }
  split; [done |]. split.
  - intros p. rewrite Hfinal.
    destruct (decide (p = d ++ [libName])); [by right; left |].
    case_bool_decide; [by right; left |].
    destruct (decide (p = d ++ [hName])) as [-> |]; [| by left].
    right; right. eauto.
  - intros f Hf. rewrite Hfinal in Hf.
    destruct (decide (d ++ [f] = d ++ [libName])); [by destruct Hf |].
    case_bool_decide as Hin; [by destruct Hf |].
    destruct (decide (d ++ [f] = d ++ [hName])) as [E |].
    + by apply app_inv_head in E as [= ->].
    + destruct (artifact f) eqn:Hart; [| done]. exfalso. apply Hin.
      apply elem_of_under. exists f. split; [done |].
      apply list_elem_of_filter. split; [| by apply Hnames].
      apply Is_true_true.
      by apply (good_artifact f (Htidy f Hf)) in Hart as [? _].
Qed.

Lemma tidy_in (d : list string) (u : gmap (list string) node) :
  tidy u → d ∈ work_dirs →
  ∀ f, is_Some (u !! (d ++ [f])) → good_name f = true.
Proof. intros Ht Hd f. by apply Ht. Qed.

Lemma root_work_dir : [] ∈ work_dirs.
Proof. unfold work_dirs. by left. Qed.

Lemma variant_work_dir (gfx : string) : gfx ∈ GFX_EMUS → [gfx] ∈ work_dirs.
Proof.
  intros [-> | ->]%in_GFX_EMUS; unfold work_dirs;
    rewrite !elem_of_cons; auto.
Qed.

Lemma package_common_clean (u : gmap (list string) node) (l : list event)
    (s' : state) :
  tidy u →
  package_common (mkState [] u l) = (Ok tt, s') →
  cwd s' = [] ∧ evolves [] u (fs s') ∧ clean_in (fs s') [].
Proof.
  intros Ht Hrun. unfold Script.package_common in Hrun.
  rewrite bind_eq, listdir_root, collect_common_spaced in Hrun.
  rewrite <- (map_id (filter _ (entries u []))) in Hrun.
  apply (package_dir_clean Hex.bin2hex_common [] (λ f, f)
           "glslEmu.lib" "glslEmu.lib" "g_llpcGlslEmuLib.h" "g_llpcGlslEmuLib.h"
           (entries u []) u l s'); try done.
  - apply tidy_in; [done | apply root_work_dir].
  - intros f. apply elem_of_entries.
  - intros f Hf. by apply resolve_name.
Qed.

Lemma package_variant_clean (gfx : string) (u : gmap (list string) node)
    (l : list event) (s' : state) :
  gfx ∈ GFX_EMUS → tidy u →
  package_variant gfx (mkState [] u l) = (Ok tt, s') →
  cwd s' = [] ∧ evolves [gfx] u (fs s') ∧ clean_in (fs s') [gfx].
Proof.
  intros Hgfx Ht Hrun.
  assert (Hfacts : resolve [] gfx = [gfx] ∧ valid_name gfx = true ∧
                   plain gfx = true ∧
                   resolve [] (variant_lib gfx)
                   = [gfx] ++ ["glslEmu" +:+ capitalize gfx +:+ ".lib"] ∧
                   plain (variant_lib gfx) = true ∧
                   resolve [] (variant_header gfx)
                   = [gfx] ++ ["g_llpcGlslEmuLib" +:+ capitalize gfx +:+ ".h"] ∧
                   good_name ("g_llpcGlslEmuLib" +:+ capitalize gfx +:+ ".h")
                   = true ∧
                   artifact ("g_llpcGlslEmuLib" +:+ capitalize gfx +:+ ".h")
                   = false).
  { destruct (in_GFX_EMUS gfx Hgfx) as [-> | ->]; by vm_compute. }
  destruct Hfacts as (Hd & Hv & Hp & Hl & Hlp & Hh & Hhg & Hha).
  unfold Script.package_variant in Hrun. rewrite bind_eq in Hrun.
  unfold listdir at 1 in Hrun. cbn [cwd fs log] in Hrun. rewrite Hd in Hrun.
  destruct (is_dir u [gfx]); [| by destruct (u !! [gfx])].
  rewrite collect_variant_spaced in Hrun.
  apply (package_dir_clean Hex.bin2hex_variant [gfx] (λ f, gfx +:+ "/" +:+ f)
           (variant_lib gfx) ("glslEmu" +:+ capitalize gfx +:+ ".lib")
           (variant_header gfx) ("g_llpcGlslEmuLib" +:+ capitalize gfx +:+ ".h")
           (entries u [gfx]) u l s'); try done.
  - apply tidy_in; [done | by apply variant_work_dir].
  - intros f. apply elem_of_entries.
  - intros f Hf. by apply (resolve_in_dir [] gfx f).
  - intros f Hf. by apply plain_in_dir.
Qed.

Lemma package_special_evolves (feature : string)
    (u : gmap (list string) node) (l : list event) (s' : state) :
  feature ∈ SPECIAL_EMUS →
  package_special feature (mkState [] u l) = (Ok tt, s') →
  cwd s' = [] ∧ evolves [] u (fs s').
Proof.
  intros Hfeature Hrun. unfold Script.package_special in Hrun.
  rewrite bind_eq, listdir_root in Hrun.
  destruct (String.eqb (find_special feature (entries u [])) "").
  - injection Hrun as <-. split; [done | apply evolves_refl].
  - set (bc := find_special feature (entries u [])) in *.
    assert (Hfacts :
      ∃ lib h, resolve [] ("glsl" +:+ feature +:+ "Emu.lib") = [lib] ∧
               plain ("glsl" +:+ feature +:+ "Emu.lib") = true ∧
               resolve [] ("g_llpcGlsl" +:+ feature +:+ "EmuLib.h") = [h] ∧
               good_name h = true).
    { unfold SPECIAL_EMUS in Hfeature.
      apply elem_of_cons in Hfeature as [-> | Hfeature];
        [eexists _, _; by vm_compute |].
      apply elem_of_cons in Hfeature as [-> | Hfeature];
        [eexists _, _; by vm_compute |].
      by apply elem_of_nil in Hfeature. }
    destruct Hfacts as (lib & h & Hlib & Hlp & Hh & Hhg).
    apply embed_Ok in Hrun as (data & text & Hdata & Henc & Hrest).
    apply bind_Ok_inv in Hrest as ([] & s1 & H1 & H2).
    apply remove_Ok in H1 as [_ ->].
    apply remove_Ok in H2 as [_ ->]. cbn [cwd fs].
    split; [done |]. rewrite Hlib, Hh. intros p.
    destruct (decide (p = [lib])) as [-> | Hne1];
      [right; left; apply lookup_delete_eq |].
    rewrite lookup_delete_ne by done.
    destruct (decide (p = resolve [] bc)) as [-> | Hne2];
      [right; left; apply lookup_delete_eq |].
    rewrite lookup_delete_ne by done.
    destruct (decide (p = [h])) as [-> | Hne3];
      [right; right; by exists h |].
    rewrite !lookup_insert_ne by done. left.
    apply Hlink; [done | by rewrite Hlib].
Qed.

Lemma assemble_common_evolves (u : gmap (list string) node) (l : list event)
    (r : outcome unit) (s' : state) :
  tidy u →
  assemble_common (mkState [] u l) = (r, s') →
  cwd s' = [] ∧ evolves [] u (fs s').
Proof.
  intros Ht Hrun. unfold Script.assemble_common in Hrun.
  rewrite bind_eq, listdir_root in Hrun.
  apply (call_loop_evolves [] (λ f, endswith f ".ll")
           (λ f, LLVM_AS +:+ " " +:+ f)) in Hrun; [done |].
  intros f Hf%elem_of_entries Hll.
  apply (Ht [] f root_work_dir) in Hf.
  destruct (good_source f Hf Hll) as [Hp Hv].
  exists (bc_of f). split; [by apply good_bc_of |].
  intros sh t p Hp'. apply Has.
  by rewrite (resolve_name [] _ (bc_of_valid f Hv)).
Qed.

Lemma assemble_variant_evolves (gfx : string) (u : gmap (list string) node)
    (l : list event) (r : outcome unit) (s' : state) :
  gfx ∈ GFX_EMUS → tidy u →
  assemble_variant gfx (mkState [] u l) = (r, s') →
  cwd s' = [] ∧ evolves [gfx] u (fs s').
Proof.
  intros Hgfx Ht Hrun.
  assert (Hfacts : resolve [] gfx = [gfx] ∧ valid_name gfx = true)
    by (destruct (in_GFX_EMUS gfx Hgfx) as [-> | ->]; by vm_compute).
  destruct Hfacts as [Hd Hvg].
  unfold Script.assemble_variant in Hrun. rewrite bind_eq in Hrun.
  unfold listdir at 1 in Hrun. cbn [cwd fs log] in Hrun. rewrite Hd in Hrun.
  destruct (is_dir u [gfx]).
  - apply (call_loop_evolves [gfx] (λ f, endswith f ".ll")
             (λ f, LLVM_AS +:+ " " +:+ gfx +:+ "/" +:+ f)) in Hrun; [done |].
    intros f Hf%elem_of_entries Hll.
    apply (Ht [gfx] f (variant_work_dir gfx Hgfx)) in Hf.
    destruct (good_source f Hf Hll) as [Hp Hv].
    exists (bc_of f). split; [by apply good_bc_of |].
    intros sh t p Hp'. apply Has.
    by rewrite bc_of_in_dir, (resolve_in_dir [] gfx _ Hvg (bc_of_valid f Hv)).
  - split; [by destruct (u !! [gfx]); injection Hrun as _ <- |].
    destruct (u !! [gfx]); injection Hrun as _ <-; apply evolves_refl.
Qed.

Lemma generate_common_evolves (u : gmap (list string) node) (l : list event)
    (s' : state) :
  generate_common (mkState [] u l) = (Ok tt, s') →
  cwd s' = [] ∧ evolves [] u (fs s').
Proof.
  unfold Script.generate_common.
  intros ([] & [c1 u1 l1] & H1 & H2)%bind_Ok_inv.
  apply (generator_evolves genArith _ _ _ [] "g_glslArithOpEmu.ll") in H1
    as (Hc1 & _ & He1); [| done..].
  cbn [cwd fs] in *. subst c1.
  apply (generator_evolves genArith _ _ _ [] "g_glslArithOpEmuF64.ll") in H2
    as (Hc2 & _ & He2); [| done..].
  split; [done |]. by eapply evolves_trans.
Qed.

(** A whole variant: generate, assemble, package. *)
Lemma variant_clean (gfx : string) (u : gmap (list string) node)
    (l : list event) (s' : state) :
  gfx ∈ GFX_EMUS → tidy u →
  variant gfx (mkState [] u l) = (Ok tt, s') →
  cwd s' = [] ∧ evolves [gfx] u (fs s') ∧ clean_in (fs s') [gfx].
Proof.
  intros Hgfx Ht Hrun. unfold Script.variant in Hrun.
  apply bind_Ok_inv in Hrun as ([] & [c1 u1 l1] & Hgen & Hrun).
  assert (Hout : resolve [] (gfx +:+ "/g_glslImageOpEmu.ll")
                 = [gfx] ++ ["g_glslImageOpEmu.ll"])
    by (destruct (in_GFX_EMUS gfx Hgfx) as [-> | ->]; by vm_compute).
  apply (generator_evolves genImage _ _ _ [gfx] "g_glslImageOpEmu.ll") in Hgen
    as (Hc1 & _ & He1); [| done..].
  cbn [cwd fs] in *. subst c1.
  apply bind_Ok_inv in Hrun as ([] & [c2 u2 l2] & Hasm & Hpkg).
  apply assemble_variant_evolves in Hasm as [Hc2 He2];
    [| done | by eapply tidy_evolves].
  cbn [cwd fs] in *. subst c2.
  apply package_variant_clean in Hpkg as (Hc3 & He3 & Hclean);
    [| done | eapply tidy_evolves; [eapply tidy_evolves |]; eassumption].
  split; [done |]. split; [| done].
  eapply evolves_trans; [eapply evolves_trans |]; eassumption.
Qed.

(** After the clean-up pass the work directories are tidy. *)
Lemma tidy_swept (t : gmap (list string) node) :
  wf_names t →
  t !! ["gfx6"] = Some Dir → t !! ["gfx9"] = Some Dir →
  plain_sources t →
  tidy (swept t).
Proof.
  intros Hwf H6 H9 Hsrc d f Hd Hf.
  rewrite swept_lookup in Hf.
  destruct (doomed t (d ++ [f])) eqn:Hdoom; [by destruct Hf |].
  assert (Hv : valid_name f = true).
  { apply Hwf in Hf. rewrite Forall_app, Forall_singleton in Hf. by destruct Hf. }
  assert (Hgen : is_generated f = false).
  { destruct (in_work_dirs d Hd) as [-> | [-> | ->]];
      cbn [app doomed is_dir] in Hdoom; [done | |].
    - by rewrite H6 in Hdoom.
    - by rewrite H9 in Hdoom. }
  unfold is_generated in Hgen.
  apply orb_false_iff in Hgen as [[_ Hbc]%orb_false_iff Hlib].
  unfold good_name. rewrite Hv, Hlib, Hbc, orb_false_r. cbn.
  destruct (endswith f ".ll") eqn:Hll; [| done]. cbn.
  by apply (Hsrc d).
Qed.


End Stages.

(** ** More on the binary-to-hex pass *)

Section EncoderFacts.
Import Hex Props.

Lemma slength_layout (k : nat) (bs : list Byte.byte) :
  String.length (layout k bs) + (match bs with [] => 0 | _ => 2 end) + k / 16
  = 6 * length bs + (k + length bs) / 16.
Proof.
  revert k. induction bs as [|b rest IH]; intros k.
  - simpl. by rewrite !Nat.add_0_r.
  - rewrite layout_cons, !slength_app.
    specialize (IH (S k)). rewrite div16_succ in IH.
    replace (k + length (b :: rest)) with (S k + length rest) by (simpl; lia).
    change (String.length (token b)) with 4.
    destruct rest, (S k mod 16 =? 0); simpl in *; lia.
Qed.

(** The text of n bytes has 6n - 2 characters (four per token, two per
    separator between tokens) and one more per newline; the empty input
    gives the empty text. *)
Theorem encoded_length (binData : list Byte.byte) :
  ∃ text,
    bin2hex_common binData = Done text ∧
    String.length text
    = 6 * length binData - (if length binData =? 0 then 0 else 2)
      + length binData / 16.
Proof.
  exists (layout 0 binData). split; [apply bin2hex_common_layout |].
  pose proof (slength_layout 0 binData) as H.
  destruct binData; simpl in *; lia.
Qed.

Lemma all_chars_app (P : ascii → bool) (a b : string) :
  all_chars P (a +:+ b) = all_chars P a && all_chars P b.
Proof.
  induction a as [|c a IH]; [done |].
  rewrite sapp_cons. cbn [all_chars]. by rewrite IH, andb_assoc.
Qed.

Lemma token_chars (b : Byte.byte) : all_chars header_char (token b) = true.
Proof.
  unfold token, hex_pair. cbn [all_chars]. unfold header_char at 3 4.
  by rewrite hex_digit_hi_hex, hex_digit_lo_hex.
Qed.

Lemma layout_chars (k : nat) (bs : list Byte.byte) :
  all_chars header_char (layout k bs) = true.
Proof.
  revert k. induction bs as [|b rest IH]; intros k; [done |].
  rewrite layout_cons, !all_chars_app, token_chars, IH.
  by destruct rest, (S k mod 16 =? 0).
Qed.

(** The text is made of lowercase hex digits, ["x"], commas, spaces and
    newlines, and of nothing else. *)
Theorem encoded_alphabet (binData : list Byte.byte) :
  ∃ text,
    bin2hex_variant binData = Done text ∧
    all_chars header_char text = true.
Proof.
  exists (layout 0 binData). split; [| apply layout_chars].
  rewrite bin2hex_variant_common. apply bin2hex_common_layout.
Qed.

Lemma decode_layout (k : nat) (bs : list Byte.byte) :
  decode (layout k bs) = Some bs.
Proof. unfold decode. rewrite strip_layout. apply unhexlify_hexlify. Qed.

(** Two libraries with the same text are the same library. *)
Theorem encoding_injective (a b : list Byte.byte) :
  bin2hex_special a = bin2hex_special b → a = b.
Proof.
  rewrite !bin2hex_special_common, !bin2hex_common_layout.
  intros [= H].
  assert (Hh : hexlify a = hexlify b) by (by rewrite <- !(strip_layout 0), H).
  pose proof (unhexlify_hexlify a) as Ha. rewrite Hh, unhexlify_hexlify in Ha.
  by injection Ha.
Qed.

End EncoderFacts.

(** ** What the script adds to the trace *)

Section Triples.
Import Py Os Script Obs Props.

Context (Q : event → Prop).

Lemma run_ok_quiet {A : Type} (m : M A) (s : state)
    (C' : list string → Prop) (R : A → Prop) :
  log (m s).2 = log s →
  (∀ a, (m s).1 = Ok a → C' (cwd (m s).2) ∧ R a) →
  run_ok Q m s C' R.
Proof. intros Hl H. exists []. by rewrite app_nil_r. Qed.

Lemma run_ok_bind {A B : Type} (m : M A) (k : A → M B) (s : state)
    (C1 C2 : list string → Prop) (R1 : A → Prop) (R2 : B → Prop) :
  run_ok Q m s C1 R1 →
  (∀ a, R1 a → triple C1 Q (k a) C2 R2) →
  run_ok Q (m ≫= k) s C2 R2.
Proof.
  intros (evs1 & Hl1 & HQ1 & H1) Hk. unfold run_ok. rewrite bind_eq.
  destruct (m s) as [[a | e] s1]; cbn [fst snd] in *.
  - destruct (H1 a eq_refl) as [HC HR].
    destruct (Hk a HR s1 HC) as (evs2 & Hl2 & HQ2 & H2).
    exists (evs1 ++ evs2). rewrite Hl2, Hl1, app_assoc.
    split; [done |]. split; [by apply Forall_app | done].
  - exists evs1. by repeat split.
Qed.

Lemma triple_bind {A B : Type} (m : M A) (k : A → M B)
    (C C1 C2 : list string → Prop) (R1 : A → Prop) (R2 : B → Prop) :
  triple C Q m C1 R1 →
  (∀ a, R1 a → triple C1 Q (k a) C2 R2) →
  triple C Q (m ≫= k) C2 R2.
Proof. intros Hm Hk s HC. eapply run_ok_bind; [by apply Hm | done]. Qed.

Lemma triple_ret {A : Type} (a : A) (C : list string → Prop) (R : A → Prop) :
  R a → triple C Q (mret a) C R.
Proof.
  intros HR s HC. apply run_ok_quiet; [done |]. by intros a' [= <-].
Qed.

Lemma triple_weaken {A : Type} (m : M A) (C C' : list string → Prop)
    (R R' : A → Prop) :
  triple C Q m C' R → (∀ a, R a → R' a) → triple C Q m C' R'.
Proof.
  intros Hm HR s HC. destruct (Hm s HC) as (evs & Hl & HQ & H).
  exists evs. repeat split; [done.. | |]; destruct (H a); auto.
Qed.

Lemma triple_for_each {A : Type} (l : list A) (body : A → M unit)
    (C : list string → Prop) :
  (∀ x, x ∈ l → triple C Q (body x) C (λ _, True)) →
  triple C Q (for_each l body) C (λ _, True).
Proof.
  induction l as [|x l IH]; intros Hbody.
  - by apply (triple_ret tt).
  - cbn [for_each]. eapply triple_bind; [apply Hbody; by left |].
    intros _ _. apply IH. intros y Hy. apply Hbody. by right.
Qed.

(** *** The calls of the script *)

Lemma triple_listdir (p : string) (C : list string → Prop) :
  triple C Q (listdir p) C (λ _, True).
Proof.
  intros s HC. apply run_ok_quiet; unfold listdir;
    destruct (is_dir (fs s) (resolve (cwd s) p));
    [done | by destruct (fs s !! _) | by intros a [= <-] |
     by destruct (fs s !! _)].
Qed.

Lemma triple_isdir (p : string) (C : list string → Prop) :
  triple C Q (isdir p) C (λ _, True).
Proof. intros s HC. by apply run_ok_quiet. Qed.

Lemma triple_chdir (p : string) (C C' : list string → Prop) :
  (∀ d, C d → C' (resolve d p)) →
  triple C Q (chdir p) C' (λ _, True).
Proof.
  intros H s HC. apply run_ok_quiet; unfold chdir;
    destruct (is_dir (fs s) (resolve (cwd s) p));
    [done | by destruct (fs s !! _) | intros a _; split; [by apply H | done] |
     by destruct (fs s !! _)].
Qed.

Lemma triple_remove (p : string) (C : list string → Prop) :
  (∀ q, Q (Removed q)) →
  triple C Q (remove p) C (λ _, True).
Proof.
  intros H s HC. unfold run_ok, remove.
  destruct (is_dir (fs s) (resolve (cwd s) p));
    [exists []; by rewrite app_nil_r |].
  destruct (fs s !! resolve (cwd s) p);
    [| exists []; by rewrite app_nil_r].
  eexists [_]. cbn [fst snd cwd log]. repeat split; [| done].
  apply Forall_singleton, H.
Qed.

Lemma triple_read_binary (p : string) (C : list string → Prop) :
  triple C Q (read_binary p) C (λ _, True).
Proof.
  intros s HC. apply run_ok_quiet; unfold read_binary;
    destruct (is_dir (fs s) (resolve (cwd s) p)); try done;
    by destruct (fs s !! _) as [[] |].
Qed.

Lemma triple_open_w (p : string) (C : list string → Prop) :
  (∀ d, C d → Q (Opened (resolve d p))) →
  triple C Q (open_w p) C (λ q, ∃ d, C d ∧ q = resolve d p).
Proof.
  intros H s HC. unfold run_ok, open_w.
  destruct (is_dir (fs s) (resolve (cwd s) p));
    [exists []; by rewrite app_nil_r |].
  destruct (is_dir (fs s) (removelast (resolve (cwd s) p))).
  - eexists [_]. cbn [fst snd cwd log]. split; [done |].
    split; [by apply Forall_singleton, H |].
    intros a [= <-]. eauto.
  - exists []. rewrite app_nil_r.
    by destruct (fs s !! removelast (resolve (cwd s) p)).
Qed.

Lemma triple_write_close (f : list string) (text : string)
    (C : list string → Prop) :
  Q (Written f text) →
  triple C Q (write_close f text) C (λ _, True).
Proof.
  intros H s HC. eexists [_]. cbn [write_close fst snd cwd log].
  split; [done |]. split; [by apply Forall_singleton | done].
Qed.

Lemma triple_hex_text (r : Hex.loop_result) (C : list string → Prop) :
  triple C Q (hex_text r) C (λ _, True).
Proof. intros s HC. apply run_ok_quiet; by destruct r. Qed.

Lemma triple_call_generator (g : generator) (input output mode : string)
    (C : list string → Prop) :
  triple C Q (call_generator g input output mode) C (λ _, True).
Proof.
  intros s HC. apply run_ok_quiet; unfold call_generator;
    by destruct (g input output mode (fs s)).
Qed.

Lemma triple_call (OS_TYPE : string) (run : program) (cmd : string)
    (C : list string → Prop) :
  Q (Spawned (shell_flag OS_TYPE) cmd) →
  triple C Q (Script.call OS_TYPE run cmd) C (λ _, True).
Proof.
  intros H s HC. unfold run_ok. rewrite call_eq. cbn zeta.
  exists [Spawned (shell_flag OS_TYPE) cmd].
  destruct (run (shell_flag OS_TYPE) cmd (fs s)).1;
    cbn [fst snd cwd log]; (split; [done |]);
    (split; [by apply Forall_singleton | done]).
Qed.

End Triples.

(** *** The clean-up pass: removals only *)

Section CleanupTrace.
Import Py Os Script Obs Props.

Context (Q : event → Prop).
Hypothesis HQr : ∀ p, Q (Removed p).

Lemma cleanup_inner_triple (names : list string) (C : list string → Prop) :
  triple C Q (cleanup_inner names) C (λ _, True).
Proof.
  apply triple_for_each. intros f _.
  destruct (is_generated f); [by apply triple_remove | by apply (triple_ret Q tt)].
Qed.

(** One turn of the loop of lines 55-68, entering the directory from a
    place in [C] and coming back to one. *)
Lemma cleanup_body_triple (C C1 : list string → Prop) (f : string) :
  (∀ d, C d → C1 (resolve d ("./" +:+ f))) →
  (∀ d, C1 d → C (resolve d "./..")) →
  triple C Q
    (if is_generated f then remove f
     else
       d ← isdir f;
       if d && startswith f "gfx" then
         chdir ("./" +:+ f);;
         names' ← listdir "./";
         cleanup_inner names';;
         chdir "./.."
       else mret tt) C (λ _, True).
Proof.
  intros Hin Hout.
  destruct (is_generated f); [by apply triple_remove |].
  eapply triple_bind; [apply triple_isdir |]. intros d _.
  destruct (d && startswith f "gfx"); [| by apply (triple_ret Q tt)].
  eapply triple_bind; [by apply triple_chdir |]. intros _ _.
  eapply triple_bind; [apply triple_listdir |]. intros names' _.
  eapply triple_bind; [apply cleanup_inner_triple |]. intros _ _.
  by apply triple_chdir.
Qed.

Lemma cleanup_triple :
  triple (λ _, True) Q cleanup (λ _, True) (λ _, True).
Proof.
  unfold cleanup.
  eapply triple_bind; [apply triple_listdir |]. intros names _.
  apply triple_for_each. intros f _.
  by apply (cleanup_body_triple (λ _, True) (λ _, True)).
Qed.

(** From the working root, with well-formed names, a pass that returns
    is back in the working root. *)
Lemma cleanup_run_ok (t : gmap (list string) node) (l : list event) :
  wf_names t →
  run_ok Q cleanup (mkState [] t l) (λ d, d = []) (λ _, True).
Proof.
  intros Hwf. unfold cleanup.
  eapply (run_ok_bind Q _ _ _ (λ d, d = []) (λ d, d = [])
            (λ names, names = entries t [])).
  - apply run_ok_quiet; [done |]. rewrite listdir_root. by intros a [= <-].
  - intros names ->. apply triple_for_each. intros f Hf.
    apply (cleanup_body_triple (λ d, d = []) (λ d, d = [f])).
    + intros d ->. apply (resolve_dot_slash_name []).
      by apply (listed_valid t []).
    + intros d ->. apply (resolve_up []).
Qed.

End CleanupTrace.

(** *** The steps after the clean-up pass *)

Section ScriptTrace.
Import Py Os Script Obs Props.

Context (LLVM_AS_DIR LLVM_LINK_DIR OS_TYPE : string).
Context (run : program) (genArith genImage : generator).
Context (C : list string → Prop) (Q : event → Prop).

Hypothesis HQs : ∀ cmd, Q (Spawned (shell_flag OS_TYPE) cmd).
Hypothesis HQr : ∀ p, Q (Removed p).
Hypothesis HQh : ∀ d h text, C d → h ∈ header_files →
  Q (Opened (resolve d h)) ∧ Q (Written (resolve d h) text).

Lemma embed_triple (enc : list Byte.byte → Hex.loop_result)
    (cmd libFile hFile : string) (rest : M unit) :
  hFile ∈ header_files →
  triple C Q rest C (λ _, True) →
  triple C Q
    (Script.call OS_TYPE run cmd;;
     binData ← read_binary libFile;
     fHex ← open_w hFile;
     hexText ← hex_text (enc binData);
     write_close fHex hexText;;
     rest) C (λ _, True).
Proof.
  intros Hh Hrest.
  eapply triple_bind; [by apply triple_call |]. intros _ _.
  eapply triple_bind; [apply triple_read_binary |]. intros data _.
  eapply triple_bind; [apply triple_open_w; intros d Hd; by apply HQh |].
  intros fHex (d & Hd & ->).
  eapply triple_bind; [apply triple_hex_text |]. intros text _.
  eapply triple_bind; [apply triple_write_close; by apply HQh |].
  intros _ _. exact Hrest.
Qed.

Lemma removals_triple (names : list string) (p : string) :
  triple C Q (for_each names (λ f, remove f);; remove p) C (λ _, True).
Proof.
  eapply triple_bind.
  - apply triple_for_each. intros f _. by apply triple_remove.
  - intros _ _. by apply triple_remove.
Qed.

Lemma assemble_loop_triple (P : string → bool) (c : string → string)
    (names : list string) :
  triple C Q
    (for_each names (λ f, if P f then Script.call OS_TYPE run (c f) else mret tt))
    C (λ _, True).
Proof.
  apply triple_for_each. intros f _.
  destruct (P f); [by apply triple_call | by apply (triple_ret Q tt)].
Qed.

Lemma generate_common_triple :
  triple C Q (generate_common genArith) C (λ _, True).
Proof.
  unfold generate_common.
  eapply triple_bind; [apply triple_call_generator |]. intros _ _.
  apply triple_call_generator.
Qed.

Lemma assemble_common_triple :
  triple C Q (assemble_common LLVM_AS_DIR OS_TYPE run) C (λ _, True).
Proof.
  unfold assemble_common.
  eapply triple_bind; [apply triple_listdir |]. intros names _.
  apply (assemble_loop_triple (λ f, endswith f ".ll")
           (λ f, Script.LLVM_AS LLVM_AS_DIR +:+ " " +:+ f)).
Qed.

Lemma package_special_triple (feature : string) :
  feature ∈ SPECIAL_EMUS →
  triple C Q (package_special LLVM_LINK_DIR OS_TYPE run feature) C (λ _, True).
Proof.
  intros Hf. unfold package_special.
  eapply triple_bind; [apply triple_listdir |]. intros names _.
  destruct (String.eqb (find_special feature names) "");
    [by apply (triple_ret Q tt) |].
  apply embed_triple.
  - unfold header_files. apply elem_of_app. left.
    apply list_elem_of_fmap. by exists feature.
  - eapply triple_bind;
      [by apply triple_remove | intros _ _; by apply triple_remove].
Qed.

Lemma package_common_triple :
  triple C Q (package_common LLVM_LINK_DIR OS_TYPE run) C (λ _, True).
Proof.
  unfold package_common.
  eapply triple_bind; [apply triple_listdir |]. intros names _.
  apply embed_triple; [| apply removals_triple].
  unfold header_files. apply elem_of_app. right. by left.
Qed.

Lemma variant_triple (gfx : string) :
  gfx ∈ GFX_EMUS →
  triple C Q (variant LLVM_AS_DIR LLVM_LINK_DIR OS_TYPE run genImage gfx)
    C (λ _, True).
Proof.
  intros Hg. unfold variant.
  eapply triple_bind; [apply triple_call_generator |]. intros _ _.
  eapply triple_bind.
  { unfold assemble_variant.
    eapply triple_bind; [apply triple_listdir |]. intros names _.
    apply (assemble_loop_triple (λ f, endswith f ".ll")
             (λ f, Script.LLVM_AS LLVM_AS_DIR +:+ " " +:+ gfx +:+ "/" +:+ f)). }
  intros _ _. unfold package_variant.
  eapply triple_bind; [apply triple_listdir |]. intros names _.
  apply embed_triple; [| apply removals_triple].
  unfold header_files. apply elem_of_app. right. right.
  apply list_elem_of_fmap. by exists gfx.
Qed.

(** Everything after the clean-up pass (lines 80-267). *)
Lemma build_triple :
  triple C Q
    (generate_common genArith;;
     assemble_common LLVM_AS_DIR OS_TYPE run;;
     for_each SPECIAL_EMUS (package_special LLVM_LINK_DIR OS_TYPE run);;
     package_common LLVM_LINK_DIR OS_TYPE run;;
     for_each GFX_EMUS
       (variant LLVM_AS_DIR LLVM_LINK_DIR OS_TYPE run genImage))
    C (λ _, True).
Proof.
  eapply triple_bind; [apply generate_common_triple |]. intros _ _.
  eapply triple_bind; [apply assemble_common_triple |]. intros _ _.
  eapply triple_bind;
    [apply triple_for_each; intros f Hf; by apply package_special_triple |].
  intros _ _.
  eapply triple_bind; [apply package_common_triple |]. intros _ _.
  apply triple_for_each. intros g Hg. by apply variant_triple.
Qed.

End ScriptTrace.

Section TraceTheorems.
Import Py Os Script Obs Props.

Context (LLVM_AS_DIR LLVM_LINK_DIR OS_TYPE : string).
Context (run : program) (genArith genImage : generator).

Local Abbreviation main :=
  (Script.main LLVM_AS_DIR LLVM_LINK_DIR OS_TYPE run genArith genImage).

(** Every program of a run, whatever the state it starts from and
    however it ends, is started with the same shell flag: without a
    shell when [OS_TYPE] is "win", through the shell otherwise. *)
Theorem every_call_same_shell (s : state) :
  ∃ evs,
    log (main s).2 = log s ++ evs ∧
    ∀ sh cmd, Spawned sh cmd ∈ evs → sh = negb (String.eqb OS_TYPE "win").
Proof.
  assert (H : triple (λ _, True) (shell_is (shell_flag OS_TYPE)) main
                (λ _, True) (λ _, True)).
  { unfold Script.main.
    eapply triple_bind; [by apply cleanup_triple |]. intros _ _.
    by apply build_triple. }
  destruct (H s I) as (evs & Hl & HQ & _).
  exists evs. split; [done |]. intros sh cmd Hin.
  rewrite Forall_forall in HQ. exact (HQ _ Hin).
Qed.

(** The script itself creates and writes no file but its five headers,
    however the run ends (every other file is the work of the programs
    it starts). *)
Theorem writes_only_headers (t : gmap (list string) node) (l : list event) :
  wf_names t →
  ∃ evs,
    log (main (mkState [] t l)).2 = l ++ evs ∧
    ∀ p, (Opened p ∈ evs ∨ ∃ text, Written p text ∈ evs) →
         p ∈ [ ["g_llpcGlslNullFsEmuLib.h"];
               ["g_llpcGlslCopyShaderEmuLib.h"];
               ["g_llpcGlslEmuLib.h"];
               ["gfx6"; "g_llpcGlslEmuLibGfx6.h"];
               ["gfx9"; "g_llpcGlslEmuLibGfx9.h"] ].
Proof.
  intros Hwf.
  set (own := [ ["g_llpcGlslNullFsEmuLib.h"];
                ["g_llpcGlslCopyShaderEmuLib.h"];
                ["g_llpcGlslEmuLib.h"];
                ["gfx6"; "g_llpcGlslEmuLibGfx6.h"];
                ["gfx9"; "g_llpcGlslEmuLibGfx9.h"] ]).
  assert (Hown : ∀ h, h ∈ header_files → resolve [] h ∈ own).
  { intros h Hh. change own with (map (resolve []) header_files).
    apply list_elem_of_fmap. by exists h. }
  assert (H : run_ok (writes_in own) main (mkState [] t l)
                (λ d, d = []) (λ _, True)).
  { unfold Script.main.
    eapply run_ok_bind; [by apply cleanup_run_ok |]. intros _ _.
    apply build_triple; [done.. |].
    intros d h text -> Hh. split; by apply Hown. }
  destruct H as (evs & Hl & HQ & _).
  exists evs. split; [done |]. rewrite Forall_forall in HQ.
  intros p [Hin | [text Hin]]; exact (HQ _ Hin).
Qed.

End TraceTheorems.

(** ** The assembling steps *)

Section AssembleFacts.
Import Py Os Script Obs.

Context (LLVM_AS_DIR LLVM_LINK_DIR OS_TYPE : string).
Context (run : program) (genArith genImage : generator).

Local Abbreviation LLVM_AS := (Script.LLVM_AS LLVM_AS_DIR).
Local Abbreviation call := (Script.call OS_TYPE run).
Local Abbreviation assemble_common := (Script.assemble_common LLVM_AS_DIR OS_TYPE run).
Local Abbreviation assemble_variant := (Script.assemble_variant LLVM_AS_DIR OS_TYPE run).
Local Abbreviation variant :=
  (Script.variant LLVM_AS_DIR LLVM_LINK_DIR OS_TYPE run genImage).
Local Abbreviation shell_flag := (Obs.shell_flag OS_TYPE).

(** A loop of calls starts one command per name that passes the test, in
    the order of the names, and stops at the first that cannot be
    started. *)
Lemma assemble_loop_trace (P : string → bool) (c : string → string)
    (names : list string) (s : state) :
  let cmds := map c (filter (λ f, P f) names) in
  let r := for_each names (λ f, if P f then call (c f) else mret tt) s in
  match r.1 with
  | Ok _ => log r.2 = log s ++ map (Spawned shell_flag) cmds
  | Raise e =>
      e = SpawnError ∧
      ∃ k, k < length cmds ∧
           log r.2 = log s ++ map (Spawned shell_flag) (take (S k) cmds)
  end.
Proof.
  revert s. induction names as [|f names IH]; intros s; cbn zeta.
  - simpl. by rewrite app_nil_r.
  - cbn [for_each]. rewrite bind_eq, filter_cons.
    destruct (P f) eqn:HP; simpl.
    + rewrite call_eq. cbn zeta.
      destruct (run shell_flag (c f) (fs s)) as [[status |] t1]; cbn [fst snd].
      * specialize (IH (mkState (cwd s) t1 (log s ++ [Spawned shell_flag (c f)]))).
        cbn zeta in IH.
        destruct (for_each names _ _) as [[[] | e] s2]; cbn [fst snd log] in *.
        -- by rewrite IH, <- app_assoc.
        -- destruct IH as (-> & k & Hk & ->). split; [done |].
           exists (S k). split; [lia |]. by rewrite <- app_assoc.
      * split; [done |]. exists 0. split; [lia |]. by rewrite take_0.
    + apply IH.
Qed.

(** The common assembling step lists the working root once and starts
    the assembler on every listed name that ends in ".ll", one command
    per name, in the order of the listing; it raises only when a command
    cannot be started, and has then started the commands up to that
    one. *)
Theorem assemble_common_trace (t : gmap (list string) node) (l : list event) :
  let cmds := map (λ f, LLVM_AS +:+ " " +:+ f)
                (filter (λ f, endswith f ".ll") (entries t [])) in
  let r := assemble_common (mkState [] t l) in
  match r.1 with
  | Ok _ => log r.2 = l ++ map (Spawned shell_flag) cmds
  | Raise e =>
      e = SpawnError ∧
      ∃ k, k < length cmds ∧
           log r.2 = l ++ map (Spawned shell_flag) (take (S k) cmds)
  end.
Proof.
  unfold Script.assemble_common. cbn zeta. rewrite bind_eq, listdir_root.
  apply (assemble_loop_trace (λ f, endswith f ".ll")
           (λ f, LLVM_AS +:+ " " +:+ f) (entries t []) (mkState [] t l)).
Qed.

(** The per-variant assembling step does the same in the variant's
    directory, naming each source "<tag>/<name>". *)
Theorem assemble_variant_trace (gfx : string) (t : gmap (list string) node)
    (l : list event) :
  gfx ∈ GFX_EMUS →
  t !! [gfx] = Some Dir →
  let cmds := map (λ f, LLVM_AS +:+ " " +:+ gfx +:+ "/" +:+ f)
                (filter (λ f, endswith f ".ll") (entries t [gfx])) in
  let r := assemble_variant gfx (mkState [] t l) in
  match r.1 with
  | Ok _ => log r.2 = l ++ map (Spawned shell_flag) cmds
  | Raise e =>
      e = SpawnError ∧
      ∃ k, k < length cmds ∧
           log r.2 = l ++ map (Spawned shell_flag) (take (S k) cmds)
  end.
Proof.
  intros Hgfx Hdir.
  assert (Hd : resolve [] gfx = [gfx])
    by (destruct (in_GFX_EMUS gfx Hgfx) as [-> | ->]; reflexivity).
  assert (E : assemble_variant gfx (mkState [] t l)
              = for_each (entries t [gfx])
                  (λ f, if endswith f ".ll"
                        then call (LLVM_AS +:+ " " +:+ gfx +:+ "/" +:+ f)
                        else mret tt) (mkState [] t l)).
  { unfold Script.assemble_variant. rewrite bind_eq. unfold listdir.
    cbn [cwd fs log]. rewrite Hd. cbn [is_dir]. by rewrite Hdir. }
  cbn zeta. rewrite E.
  apply (assemble_loop_trace (λ f, endswith f ".ll")
           (λ f, LLVM_AS +:+ " " +:+ gfx +:+ "/" +:+ f)
           (entries t [gfx]) (mkState [] t l)).
Qed.

(** A variant whose directory is missing once the generator has run
    stops there: the step raises before any program is started, and the
    trace is as it was. *)
Theorem variant_needs_directory (gfx : string) (t : gmap (list string) node)
    (l : list event) :
  gfx ∈ GFX_EMUS →
  let g := genImage "./script/genGlslImageOpEmuCode.txt"
             (gfx +:+ "/g_glslImageOpEmu.ll") gfx t in
  g.1 = Ok tt →
  g.2 !! [gfx] ≠ Some Dir →
  variant gfx (mkState [] t l)
  = (Raise (match g.2 !! [gfx] with
            | Some _ => NotADirectoryError
            | None => FileNotFoundError
            end), mkState [] g.2 l).
Proof.
  intros Hgfx g Hok Hdir. unfold Script.variant.
  rewrite bind_eq. unfold Script.generate_variant, call_generator at 1.
  cbn [cwd fs log]. fold g. destruct g as [r t1]. cbn [fst snd] in *. subst r.
  rewrite bind_eq. unfold Script.assemble_variant.
  rewrite bind_eq. unfold listdir at 1. cbn [cwd fs log].
  assert (Hd : resolve [] gfx = [gfx])
    by (destruct (in_GFX_EMUS gfx Hgfx) as [-> | ->]; reflexivity).
  rewrite Hd. cbn [is_dir].
  destruct (t1 !! [gfx]) as [[data |] |]; done.
Qed.

End AssembleFacts.

(** ** More on the clean-up pass *)

Section CleanupMore.
Import Py Os Script Obs.

Local Abbreviation cleanup_body :=
  (λ f : string,
     if is_generated f then remove f
     else
       d ← isdir f;
       if d && startswith f "gfx" then
         chdir ("./" +:+ f);;
         names' ← listdir "./";
         cleanup_inner names';;
         chdir "./.."
       else mret tt).

Lemma for_each_same {A : Type} (l : list A) (body : A → M unit) (s : state) :
  (∀ x, x ∈ l → body x s = (Ok tt, s)) → for_each l body s = (Ok tt, s).
Proof.
  induction l as [|x l IH]; intros H; [done |].
  cbn [for_each]. rewrite bind_eq, H by left.
  apply IH. intros y Hy. apply H. by right.
Qed.

(** On a tree with nothing to remove the pass changes nothing, the trace
    included. *)
Lemma cleanup_noop (u : gmap (list string) node) (l : list event) :
  wf_names u →
  (∀ p, is_Some (u !! p) → doomed u p = false) →
  cleanup (mkState [] u l) = (Ok tt, mkState [] u l).
Proof.
  intros Hwf Hnone. unfold cleanup. rewrite bind_eq, listdir_root.
  apply for_each_same. intros f Hf.
  pose proof (listed_valid u [] f Hwf Hf) as Hvalid.
  apply elem_of_entries in Hf. cbn [app] in Hf.
  pose proof (Hnone [f] Hf) as Hgen. cbn [doomed] in Hgen. rewrite Hgen.
  rewrite bind_eq. unfold isdir at 1. cbn [cwd fs log].
  rewrite (resolve_name [] f Hvalid). cbn [app].
  destruct (is_dir u [f] && startswith f "gfx") eqn:Hgfx; [| done].
  apply andb_true_iff in Hgfx as [Hd Hpre].
  rewrite bind_eq. unfold chdir at 1. cbn [cwd fs log].
  rewrite (resolve_dot_slash_name [] f Hvalid). cbn [app]. rewrite Hd.
  rewrite bind_eq. unfold listdir at 1. cbn [cwd fs log].
  rewrite resolve_dot_slash, Hd.
  rewrite bind_eq. unfold cleanup_inner.
  rewrite for_each_same.
  - unfold chdir. cbn [cwd fs log].
    change (resolve [f] "./..") with (resolve ([] ++ [f]) "./..").
    by rewrite (resolve_up [] f).
  - intros n Hn%elem_of_entries. cbn [app] in Hn.
    pose proof (Hnone [f; n] Hn) as Hd2. cbn [doomed] in Hd2.
    rewrite Hgen, Hd, Hpre in Hd2. cbn in Hd2. by rewrite Hd2.
Qed.

Lemma swept_nothing_left (t : gmap (list string) node) (p : list string) :
  is_Some (swept t !! p) → doomed (swept t) p = false.
Proof.
  rewrite swept_lookup. intros Hp.
  destruct (doomed t p) eqn:Hd; [by destruct Hp |].
  destruct p as [|g [|f [|? ?]]]; cbn [doomed] in *; try done.
  destruct (is_dir (swept t) [g]) eqn:Hdir; [| by rewrite andb_false_r].
  assert (Hdir' : is_dir t [g] = true).
  { cbn [is_dir] in *. rewrite swept_lookup in Hdir.
    by destruct (doomed t [g]). }
  by rewrite Hdir' in Hd.
Qed.

(** The pass is idempotent: on a tree it has swept, with well-formed
    names, it returns at once, removes nothing and leaves the state as
    it found it. *)
Theorem cleanup_idempotent (t : gmap (list string) node) (l : list event) :
  wf_names t →
  cleanup (mkState [] (swept t) l) = (Ok tt, mkState [] (swept t) l).
Proof.
  intros Hwf. apply cleanup_noop.
  - intros p Hp. apply Hwf. rewrite swept_lookup in Hp.
    by destruct (doomed t p); [destruct Hp |].
  - apply swept_nothing_left.
Qed.

(** *** When the pass raises *)

(** The inner loop raises on the first directory it is to remove. *)
Lemma remove_where_raises (P : string → bool) (ns : list string)
    (d : list string) (t : gmap (list string) node) (l : list event) :
  NoDup ns →
  (∀ n, n ∈ ns → valid_name n = true) →
  (∀ n, n ∈ ns → is_Some (t !! (d ++ [n]))) →
  (∃ n, n ∈ ns ∧ P n = true ∧ t !! (d ++ [n]) = Some Dir) →
  ∃ s',
    for_each ns (λ f, if P f then remove f else mret tt) (mkState d t l)
    = (Raise IsADirectoryError, s').
Proof.
  intros Hnd. revert t l.
  induction Hnd as [|n0 ns Hn0 Hnd IH]; intros t l Hvalid Hex (n & Hn & HP & Hdir).
  - by apply elem_of_nil in Hn.
  - cbn [for_each]. rewrite bind_eq.
    assert (Hv' : ∀ m, m ∈ ns → valid_name m = true)
      by (intros; apply Hvalid; by right).
    destruct (P n0) eqn:HP0.
    + unfold remove at 1. cbn [cwd fs log].
      rewrite (resolve_name d n0) by (apply Hvalid; by left).
      rewrite is_dir_snoc.
      destruct (Hex n0) as [[data |] Hv]; [by left | | rewrite Hv; eauto].
      rewrite Hv.
      assert (Hne : ∀ m, m ∈ ns → d ++ [n0] ≠ d ++ [m])
        by (intros m Hm [= ->]%(inj (app d)); done).
      apply IH; [done | |].
      * intros m Hm. rewrite lookup_delete_ne by by apply Hne.
        apply Hex. by right.
      * apply elem_of_cons in Hn as [-> | Hn]; [congruence |].
        exists n. split; [done |]. split; [done |].
        by rewrite lookup_delete_ne by by apply Hne.
    + change (@mret M _ _ tt (mkState d t l)) with (@Ok unit tt, mkState d t l).
      cbv iota beta.
      apply IH; [done | intros; apply Hex; by right |].
      apply elem_of_cons in Hn as [-> | Hn]; [congruence | eauto].
Qed.

Section Outcome.

Context (t : gmap (list string) node).
Hypothesis Hwf : wf_names t.

(** One turn of the loop, on a name under which a directory is to be
    removed. *)
Lemma cleanup_step_raises (f : string) (rest : list string) (s : state) :
  sweeping t (f :: rest) s →
  (∃ r, doomed t (f :: r) = true ∧ t !! (f :: r) = Some Dir) →
  ∃ s1, cleanup_body f s = (Raise IsADirectoryError, s1).
Proof.
  intros Hs (r & Hd & Hdir).
  pose proof Hs as (Hcwd & Hnd & Hsub & Hlook).
  assert (HfN : f ∈ entries t []) by (apply Hsub; by left).
  pose proof (listed_valid t [] f Hwf HfN) as Hvalid.
  destruct s as [d tc lc]. cbn [cwd fs log] in *. subst d.
  assert (Hahead : ∀ r, tc !! (f :: r) = t !! (f :: r))
    by (intros r'; apply (sweeping_ahead t f rest r' _ Hs)).
  destruct r as [|n [|? ?]]; cbn [doomed] in Hd; [| | done].
  - rewrite Hd. unfold remove. cbn [cwd fs log].
    rewrite (resolve_name [] f Hvalid). cbn [app is_dir].
    rewrite Hahead, Hdir. eauto.
  - apply andb_true_iff in Hd as [Hd Hgn].
    apply andb_true_iff in Hd as [Hd Hpre].
    apply andb_true_iff in Hd as [Hgen%negb_true_iff Hd].
    rewrite Hgen, bind_eq. unfold isdir at 1. cbn [cwd fs log].
    rewrite (resolve_name [] f Hvalid). cbn [app].
    assert (Hd' : is_dir tc [f] = true)
      by (cbn [is_dir] in *; by rewrite Hahead).
    rewrite Hd', Hpre. cbn [andb].
    rewrite bind_eq. unfold chdir at 1. cbn [cwd fs log].
    rewrite (resolve_dot_slash_name [] f Hvalid). cbn [app]. rewrite Hd'.
    rewrite bind_eq. unfold listdir at 1. cbn [cwd fs log].
    rewrite resolve_dot_slash, Hd'.
    assert (Hin : ∀ m, m ∈ entries tc [f] ↔ is_Some (t !! [f; m])).
    { intros m. rewrite elem_of_entries. cbn [app]. by rewrite Hahead. }
    destruct (remove_where_raises is_generated (entries tc [f]) [f] tc lc)
      as [s1 Hinner].
    { apply NoDup_entries. }
    { intros m Hm%Hin. apply Hwf in Hm.
      by apply Forall_cons in Hm as [_ [Hm _]%Forall_cons]. }
    { intros m Hm%Hin. cbn [app]. by rewrite Hahead. }
    { exists n. split; [apply Hin; by rewrite Hdir |].
      split; [done |]. cbn [app]. by rewrite Hahead. }
    rewrite bind_eq. unfold cleanup_inner. rewrite Hinner. eauto.
Qed.

(** Under a listed name, the entries to remove are all files, or one of
    them is a directory. *)
Lemma doomed_dir_dec (f : string) :
  (∀ r, doomed t (f :: r) = true → t !! (f :: r) ≠ Some Dir) ∨
  (∃ r, doomed t (f :: r) = true ∧ t !! (f :: r) = Some Dir).
Proof.
  assert (Hdir : ∀ p, p ≠ [] → is_dir t p = true ↔ t !! p = Some Dir).
  { intros [|x p] Hp; [done |]. cbn [is_dir].
    destruct (t !! (x :: p)) as [[] |]; split; done. }
  destruct (doomed t [f] && is_dir t [f]) eqn:E0.
  { apply andb_true_iff in E0 as [E0 E1]. right. exists [].
    split; [done |]. by apply Hdir. }
  destruct (existsb (λ n, doomed t [f; n] && is_dir t [f; n]) (entries t [f]))
    eqn:E1.
  { apply existsb_exists in E1 as (n & _ & [E1 E2]%andb_true_iff).
    right. exists [n]. split; [done |]. by apply Hdir. }
  left. intros r Hd Hr.
  destruct r as [|n [|? ?]]; [| | done].
  - apply Hdir in Hr; [| done]. by rewrite Hd, Hr in E0.
  - assert (E : existsb (λ n, doomed t [f; n] && is_dir t [f; n])
                  (entries t [f]) = true); [| congruence].
    apply existsb_exists. exists n. split.
    + apply list_elem_of_In, elem_of_entries. cbn [app]. by rewrite Hr.
    + rewrite Hd. by apply Hdir.
Qed.

(** The loop returns when every entry to remove is a file, and raises
    when one is a directory. *)
Lemma cleanup_loop_outcome (names : list string) (s : state) :
  sweeping t names s →
  match for_each names cleanup_body s with
  | (Ok _, _) =>
      ∀ p, head_in p names = true → doomed t p = true → t !! p ≠ Some Dir
  | (Raise e, _) =>
      e = IsADirectoryError ∧ ∃ p, doomed t p = true ∧ t !! p = Some Dir
  end.
Proof.
  revert s. induction names as [|f rest IH]; intros s Hs.
  - cbn [for_each]. intros p Hp. by rewrite head_in_nil in Hp.
  - cbn [for_each]. rewrite bind_eq.
    destruct (doomed_dir_dec f) as [Hfiles | Hbad].
    + destruct (cleanup_step t Hwf f rest s Hfiles Hs) as (s1 & -> & Hs1).
      specialize (IH s1 Hs1).
      destruct (for_each rest _ s1) as [[[] | e] s']; [| done].
      intros [|g r] Hp Hd; [done |]. cbn [head_in] in Hp.
      apply bool_decide_eq_true in Hp.
      apply elem_of_cons in Hp as [-> | Hp]; [by apply Hfiles |].
      apply IH; [| done]. cbn [head_in]. by apply bool_decide_eq_true.
    + destruct (cleanup_step_raises f rest s Hs Hbad) as [s1 ->].
      split; [done |]. destruct Hbad as (r & ? & ?). eauto.
Qed.

End Outcome.

(** With well-formed names, the pass raises exactly when an entry it is
    to remove is a directory, and the error is then the one [os.remove]
    raises on a directory. *)
Theorem cleanup_outcome (t : gmap (list string) node) (l : list event) :
  wf_names t →
  match (cleanup (mkState [] t l)).1 with
  | Ok _ => ∀ p, doomed t p = true → t !! p ≠ Some Dir
  | Raise e =>
      e = IsADirectoryError ∧ ∃ p, doomed t p = true ∧ t !! p = Some Dir
  end.
Proof.
  intros Hwf. unfold cleanup. rewrite bind_eq, listdir_root.
  pose proof (cleanup_loop_outcome t Hwf (entries t []) (mkState [] t l)) as H.
  destruct (for_each (entries t []) _ (mkState [] t l)) as [[[] | e] s'];
    cbn [fst].
  - intros p Hd Hdir.
    refine (H _ p _ Hd Hdir).
    + split; [done |]. split; [apply NoDup_entries |]. split; [done |].
      intros q. cbn [fs]. by rewrite <- andb_assoc, andb_negb_r, andb_false_r.
    + apply doomed_head_listed; [done |]. by rewrite Hdir.
  - apply H.
    split; [done |]. split; [apply NoDup_entries |]. split; [done |].
    intros q. cbn [fs]. by rewrite <- andb_assoc, andb_negb_r, andb_false_r.
Qed.

End CleanupMore.

(** ** More on the packaging steps *)

Section PackageFacts.
Import Py Os Script Obs Props.

Context (LLVM_AS_DIR LLVM_LINK_DIR OS_TYPE : string).
Context (run : program) (genArith genImage : generator).

Local Abbreviation LLVM_LINK := (Script.LLVM_LINK LLVM_LINK_DIR).
Local Abbreviation call := (Script.call OS_TYPE run).
Local Abbreviation package_special := (Script.package_special LLVM_LINK_DIR OS_TYPE run).
Local Abbreviation package_common := (Script.package_common LLVM_LINK_DIR OS_TYPE run).
Local Abbreviation assemble_common := (Script.assemble_common LLVM_AS_DIR OS_TYPE run).
Local Abbreviation generate_common := (Script.generate_common genArith).
Local Abbreviation variant :=
  (Script.variant LLVM_AS_DIR LLVM_LINK_DIR OS_TYPE run genImage).
Local Abbreviation main :=
  (Script.main LLVM_AS_DIR LLVM_LINK_DIR OS_TYPE run genArith genImage).
Local Abbreviation shell_flag := (Obs.shell_flag OS_TYPE).

(** When the listed object names have no white space in them, splitting
    the argument string a step built gives back the objects it linked,
    in order: the files removed after packaging are the files linked. *)
Theorem removed_are_linked (gfx : string) (names : list string) :
  Forall (λ f, plain f = true) (filter (λ f, endswith f ".bc") names) →
  split (collect_common names) = filter (λ f, endswith f ".bc") names ∧
  (plain gfx = true →
   split (collect_variant gfx names)
   = map (λ f, gfx +:+ "/" +:+ f) (filter (λ f, endswith f ".bc") names)).
Proof.
  intros Hplain. split.
  - rewrite collect_common_spaced. by apply split_spaced.
  - intros Hgfx. rewrite collect_variant_spaced. apply split_spaced.
    apply Forall_forall. intros w (f & -> & Hf)%list_elem_of_fmap.
    apply plain_in_dir; [done |].
    rewrite Forall_forall in Hplain. by apply Hplain.
Qed.

Lemma remove_all_under (bcs : list string) (T : gmap (list string) node) :
  (∀ f, f ∈ bcs → valid_name f = true) →
  fold_left (λ t f, delete (resolve [] f) t) bcs T
  = fold_left (λ t q, delete q t) (under [] bcs) T.
Proof.
  revert T. induction bcs as [|f bcs IH]; intros T Hv; [done |].
  cbn [fold_left under map]. rewrite (resolve_name [] f) by (apply Hv; by left).
  apply IH. intros g Hg. apply Hv. by right.
Qed.

(** A common step that returns, on a working root whose object names are
    single words, leaves the common header on disk holding a text that
    decodes to the library the linker wrote; the library and the objects
    listed are gone. *)
Theorem common_header_on_disk (u : gmap (list string) node) (l : list event)
    (s' : state) :
  (∀ f, f ∈ entries u [] → endswith f ".bc" = true →
        plain f = true ∧ valid_name f = true) →
  package_common (mkState [] u l) = (Ok tt, s') →
  let cmd := LLVM_LINK +:+ " -o=" +:+ "glslEmu.lib" +:+ " "
             +:+ spaced (filter (λ f, endswith f ".bc") (entries u [])) in
  ∃ data text,
    (run shell_flag cmd u).2 !! ["glslEmu.lib"] = Some (File data) ∧
    fs s' !! ["g_llpcGlslEmuLib.h"] = Some (File (list_byte_of_string text)) ∧
    Hex.decode text = Some data ∧
    fs s' !! ["glslEmu.lib"] = None ∧
    ∀ f, f ∈ entries u [] → endswith f ".bc" = true → fs s' !! [f] = None.
Proof.
  intros Hobj Hrun cmd.
  set (bcs := filter (λ f, endswith f ".bc") (entries u [])) in *.
  assert (Hbcs : ∀ f, f ∈ bcs ↔ f ∈ entries u [] ∧ endswith f ".bc" = true).
  { intros f. unfold bcs. rewrite list_elem_of_filter, Is_true_true. tauto. }
  unfold Script.package_common in Hrun.
  rewrite bind_eq, listdir_root, collect_common_spaced in Hrun.
  fold bcs in Hrun.
  apply embed_Ok in Hrun as (data & text & Hlib & Henc & Hrest).
  rewrite split_spaced in Hrest
    by (apply Forall_forall; intros f [Hf Hbc]%Hbcs; by apply Hobj).
  apply bind_Ok_inv in Hrest as ([] & s1 & H1 & H2).
  apply for_each_remove_Ok in H1. subst s1.
  apply remove_Ok in H2 as [_ ->].
  rewrite remove_all_under by (intros f [Hf Hbc]%Hbcs; by apply Hobj).
  change (resolve [] "glslEmu.lib") with ["glslEmu.lib"] in *.
  change (resolve [] "g_llpcGlslEmuLib.h") with ["g_llpcGlslEmuLib.h"].
  rewrite bin2hex_common_layout in Henc. injection Henc as <-.
  exists data, (Hex.layout 0 data). cbn [fs].
  split; [exact Hlib |]. split; [| split; [apply decode_layout | split]].
  - rewrite lookup_delete_ne by done. rewrite delete_all_lookup.
    rewrite bool_decide_eq_false_2; [by rewrite lookup_insert_eq |].
    intros (f & [= <-] & [_ Hbc]%Hbcs)%elem_of_under. by vm_compute in Hbc.
  - by rewrite lookup_delete_eq.
  - intros f Hf Hbc.
    destruct (decide ([f] = ["glslEmu.lib"])) as [-> | Hne];
      [by rewrite lookup_delete_eq |].
    rewrite lookup_delete_ne by done. rewrite delete_all_lookup.
    rewrite bool_decide_eq_true_2; [done |].
    apply elem_of_under. exists f. split; [done |]. by apply Hbcs.
Qed.

(** When the linker has left no library for a special feature whose
    object was found, the feature's step raises right after the link
    command, whatever the exit status: no header is created, nothing is
    removed, and the files are as the linker left them. *)
Theorem special_missing_library (feature bc : string)
    (t : gmap (list string) node) (l : list event) :
  feature ∈ SPECIAL_EMUS →
  last (filter (λ f, is_special feature f) (entries t [])) = Some bc →
  let lib := "glsl" +:+ feature +:+ "Emu.lib" in
  let cmd := LLVM_LINK +:+ " -o=" +:+ lib +:+ " " +:+ bc in
  (run shell_flag cmd t).2 !! [lib] = None →
  package_special feature (mkState [] t l)
  = (Raise (match (run shell_flag cmd t).1 with
            | Exited _ => FileNotFoundError
            | NotStarted => SpawnError
            end),
     mkState [] (run shell_flag cmd t).2 (l ++ [Spawned shell_flag cmd])).
Proof.
  intros Hfeature Hlast lib cmd Hnone.
  assert (Hsp : is_special feature bc = true).
  { destruct (proj1 (last_Some _ _) Hlast) as [pre Hpre].
    assert (Hin : bc ∈ filter (λ f, is_special feature f) (entries t []))
      by (rewrite Hpre, elem_of_app; right; constructor).
    apply list_elem_of_filter in Hin as [Hs _]. by apply Is_true_true. }
  assert (Hfind : find_special feature (entries t []) = bc)
    by (by rewrite find_special_last, Hlast).
  assert (Hne : String.eqb bc "" = false)
    by (by apply String.eqb_neq, (is_special_nonempty feature)).
  assert (Hpath : resolve [] ("glsl" +:+ feature +:+ "Emu.lib") = [lib]).
  { unfold SPECIAL_EMUS in Hfeature.
    apply elem_of_cons in Hfeature as [-> | Hfeature]; [done |].
    apply elem_of_cons in Hfeature as [-> | Hfeature]; [done |].
    by apply elem_of_nil in Hfeature. }
  unfold Script.package_special.
  rewrite bind_eq, listdir_root, Hfind, Hne, embed_eq. cbn zeta.
  rewrite Hpath. fold lib. fold cmd. cbn [is_dir]. rewrite Hnone.
  by destruct (run shell_flag cmd t).1.
Qed.

End PackageFacts.

(** ** The properties at work on the small working root *)

Section Checks.
Import Py Os Script Obs.

(** Two checks that run: the names of a tree are valid, and no directory
    of it bears a doomed name. *)
Lemma wf_names_check (t : gmap (list string) node) :
  forallb (λ kv, forallb valid_name kv.1) (map_to_list t) = true →
  wf_names t.
Proof.
  rewrite forallb_forall. intros H p [v Hv].
  apply elem_of_map_to_list, list_elem_of_In, H in Hv. cbn in Hv.
  apply Forall_forall. intros n Hn%list_elem_of_In.
  by apply (proj1 (forallb_forall _ _) Hv).
Qed.

Lemma doomed_files_check (t : gmap (list string) node) :
  forallb (λ kv, negb (doomed t kv.1)
                 || match kv.2 with Dir => false | File _ => true end)
    (map_to_list t) = true →
  ∀ p, doomed t p = true → t !! p ≠ Some Dir.
Proof.
  rewrite forallb_forall. intros H p Hd Hp.
  apply elem_of_map_to_list, list_elem_of_In, H in Hp. cbn in Hp.
  by rewrite Hd in Hp.
Qed.

Lemma plain_sources_check (t : gmap (list string) node) :
  forallb (λ kv, match last kv.1 with
                 | Some f => negb (endswith f ".ll") || plain f
                 | None => true
                 end) (map_to_list t) = true →
  plain_sources t.
Proof.
  rewrite forallb_forall. intros H d f _ [v Hv] Hll.
  apply elem_of_map_to_list, list_elem_of_In, H in Hv. cbn in Hv.
  by rewrite last_snoc, Hll in Hv.
Qed.

(** The small tool chain keeps to the contracts. *)
Lemma toy_generator_contract : generator_contract Toy.gen.
Proof.
  intros input output mode t p Hp. unfold Toy.gen. cbn.
  by rewrite lookup_insert_ne.
Qed.

Lemma toy_assembler_contract : assembler_contract "" Toy.tools.
Proof.
  intros shell src t p Hp. unfold Toy.tools.
  change (Toy.strip_prefix "llvm-as " (Script.LLVM_AS "" +:+ " " +:+ src))
    with (Some src).
  cbv iota beta.
  destruct (Toy.file_data t src) as [data |]; cbn [snd]; [| done].
  by rewrite lookup_insert_ne.
Qed.

Lemma toy_linker_contract : linker_contract "" Toy.tools.
Proof.
  intros shell lib args t p Hplain Hp. unfold Toy.tools.
  change (Toy.strip_prefix "llvm-as "
            (Script.LLVM_LINK "" +:+ " -o=" +:+ lib +:+ " " +:+ args))
    with (@None string).
  change (Toy.strip_prefix "llvm-link -o="
            (Script.LLVM_LINK "" +:+ " -o=" +:+ lib +:+ " " +:+ args))
    with (Some (lib +:+ " " +:+ args)).
  cbv iota beta.
  apply andb_true_iff in Hplain as [Hne%negb_true_iff%String.eqb_neq Hsp].
  unfold split. change (" " +:+ args) with (String " " args).
  rewrite (split_go_word lib args "" Hsp), sapp_nil_l.
  destruct lib as [|c lib]; [done |].
  destruct (Toy.link_data t (split_go "" args)) as [data |]; cbn [snd];
    [| done].
  by rewrite lookup_insert_ne.
Qed.

End Checks.

Lemma special_skipped_witness :
  Script.package_special "" "linux" Toy.tools "NullFs"
    (Os.mkState [] Toy.root0 [])
  = (Os.Ok tt, Os.mkState [] Toy.root0 []).
Proof.
  apply (special_skipped "" "linux" Toy.tools "NullFs" Toy.root0 []
           (Os.ret tt)).
  apply all_false. vm_compute. reflexivity.
Defined.


Lemma special_takes_last_witness :
  ∃ text,
    Os.log (Script.package_special "" "linux" Toy.tools "NullFs"
              (Os.mkState [] Toy.two_specials [])).2
    = [] ++ [Os.Spawned true
               ("llvm-link" +:+ " -o=" +:+ ("glsl" +:+ "NullFs" +:+ "Emu.lib")
                +:+ " " +:+ "glslNullFsEmu.bc");
             Os.Opened ["g_llpcGlsl" +:+ "NullFs" +:+ "EmuLib.h"];
             Os.Written ["g_llpcGlsl" +:+ "NullFs" +:+ "EmuLib.h"] text;
             Os.Removed ["glslNullFsEmu.bc"];
             Os.Removed ["glsl" +:+ "NullFs" +:+ "Emu.lib"]].
Proof.
  refine (proj1 (special_takes_last "" "linux" Toy.tools
                   "NullFs" "glslNullFsEmu.bc" Toy.two_specials []
                   (Script.package_special "" "linux" Toy.tools "NullFs"
                      (Os.mkState [] Toy.two_specials [])).2 _ _ _ _)).
  - unfold Script.SPECIAL_EMUS. left.
  - apply wf_names_check. vm_compute. reflexivity.
  - vm_compute. reflexivity.
  - vm_compute. reflexivity.
Defined.


